(** * detect_leakage.py: leak-detection orchestration

    A shallow embedding of [src/detect_leakage.py] and the properties of
    its search-string generation, field checking and per-domain
    aggregation.

    Conventions of the model
    - A Python [str] is a [string]; its characters are the code points
      below 256, so [strip] and [lower] are Python's on that range.
    - A JSON scalar read from the user-data file is a [pyval].  Python's
      [None] is [PNone].
    - A Python [dict] is an association list in insertion order; keys are
      unique in a dict obtained from [json.load].
    - An exception is the [Raised] outcome.  The calls made to the layered
      detector are recorded, in order, next to the outcome. *)

From Stdlib Require Import String Ascii List ZArith Bool Arith Lia DecimalString.
Import ListNotations.
Local Open Scope string_scope.
Local Open Scope list_scope.

(** ** Python strings *)

Module PyStr.

(** [str.isspace] on one character, code points below 256. *)
Definition is_space (c : ascii) : bool :=
  let n := nat_of_ascii c in
  (((9 <=? n) && (n <=? 13)) || ((28 <=? n) && (n <=? 32))
   || (n =? 133) || (n =? 160))%nat.

Fixpoint lstrip (s : string) : string :=
  match s with
  | EmptyString => EmptyString
  | String c r => if is_space c then lstrip r else s
  end.

Fixpoint rstrip (s : string) : string :=
  match s with
  | EmptyString => EmptyString
  | String c r =>
      match rstrip r with
      | EmptyString => if is_space c then EmptyString else String c EmptyString
      | r' => String c r'
      end
  end.

(** [s.strip()] *)
Definition strip (s : string) : string := rstrip (lstrip s).

Definition lower_char (c : ascii) : ascii :=
  let n := nat_of_ascii c in
  if (((65 <=? n) && (n <=? 90))
      || ((192 <=? n) && (n <=? 222) && negb (n =? 215)))%nat
  then ascii_of_nat (n + 32) else c.

(** [s.lower()] *)
Fixpoint lower (s : string) : string :=
  match s with
  | EmptyString => EmptyString
  | String c r => String (lower_char c) (lower r)
  end.

(** [s[n:]] *)
Fixpoint slice_from (n : nat) (s : string) : string :=
  match n, s with
  | O, _ => s
  | S _, EmptyString => EmptyString
  | S m, String _ r => slice_from m r
  end.

(** [s[:n]] *)
Fixpoint slice_to (n : nat) (s : string) : string :=
  match n, s with
  | O, _ => EmptyString
  | S _, EmptyString => EmptyString
  | S m, String c r => String c (slice_to m r)
  end.

(** [s.replace(" ", "")] *)
Fixpoint remove_spaces (s : string) : string :=
  match s with
  | EmptyString => EmptyString
  | String c r =>
      if Ascii.eqb c " "%char then remove_spaces r
      else String c (remove_spaces r)
  end.

(** [s.startswith(p)] *)
Definition startswith (s p : string) : bool := prefix p s.

(** ["-".join(l)] and the like *)
Definition join (sep : string) (l : list string) : string :=
  String.concat sep l.

End PyStr.

(** ** Python values, exceptions and dicts *)

Inductive pyval : Type :=
| PNone
| PBool (b : bool)
| PInt (z : Z)
| PStr (s : string).

Inductive exn : Type :=
| TypeError
| AttributeError
| UnboundLocalError.

Inductive outcome (A : Type) : Type :=
| Returned (a : A)
| Raised (e : exn).
Arguments Returned {A} a.
Arguments Raised {A} e.

Definition pyval_eqb (v w : pyval) : bool :=
  match v, w with
  | PNone, PNone => true
  | PBool a, PBool b => Bool.eqb a b
  | PInt a, PInt b => Z.eqb a b
  | PStr a, PStr b => String.eqb a b
  | _, _ => false
  end.

(** [isinstance(v, str)] *)
Definition isinstance_str (v : pyval) : bool :=
  match v with PStr _ => true | _ => false end.

(** What an f-string shows for [{v}]. *)
Definition format_value (v : pyval) : string :=
  match v with
  | PNone => "None"
  | PBool true => "True"
  | PBool false => "False"
  | PInt z => NilZero.string_of_int (Z.to_int z)
  | PStr s => s
  end.

(** An f-string: the pieces, each already shown as text, put together. *)
Definition fstring (pieces : list string) : string := String.concat "" pieces.

(** [v[n:]]: only a string can be sliced. *)
Definition py_slice_from (n : nat) (v : pyval) : outcome pyval :=
  match v with
  | PStr s => Returned (PStr (PyStr.slice_from n s))
  | _ => Raised TypeError
  end.

(** [v[:n]] *)
Definition py_slice_to (n : nat) (v : pyval) : outcome pyval :=
  match v with
  | PStr s => Returned (PStr (PyStr.slice_to n s))
  | _ => Raised TypeError
  end.

(** [v.replace(" ", "")]: only a string has the method. *)
Definition py_replace_spaces (v : pyval) : outcome string :=
  match v with
  | PStr s => Returned (PyStr.remove_spaces s)
  | _ => Raised AttributeError
  end.

Module Dict.

Definition t (V : Type) : Type := list (string * V).

Section Ops.
Context {V : Type}.

(** [d.get(k)], [None] when the key is absent *)
Fixpoint get (d : t V) (k : string) : option V :=
  match d with
  | [] => None
  | (k', v) :: r => if String.eqb k' k then Some v else get r k
  end.

(** [d.get(k, default)] *)
Definition get_default (d : t V) (k : string) (default : V) : V :=
  match get d k with Some v => v | None => default end.

(** [k in d] *)
Definition mem (d : t V) (k : string) : bool :=
  match get d k with Some _ => true | None => false end.

(** [d[k] = v]: an existing key keeps its place, a new one goes last. *)
Fixpoint set (d : t V) (k : string) (v : V) : t V :=
  match d with
  | [] => [(k, v)]
  | (k', v') :: r =>
      if String.eqb k' k then (k', v) :: r else (k', v') :: set r k v
  end.

(** [d.items()] *)
Definition items (d : t V) : list (string * V) := d.

End Ops.

End Dict.

(** [key in names] for a list of strings *)
Definition name_in (key : string) (names : list string) : bool :=
  existsb (String.eqb key) names.

(** ** Exceptions: the error monad of [get_search_strings] *)

Definition obind {A B : Type} (m : outcome A) (f : A -> outcome B) : outcome B :=
  match m with
  | Returned a => f a
  | Raised e => Raised e
  end.

Declare Scope outcome_scope.
Delimit Scope outcome_scope with outcome.
Notation "x <- m ;; k" := (obind m (fun x => k))
  (at level 61, m at next level, right associativity) : outcome_scope.

(** ** SearchStringGenerator *)

Definition general_exclusions : list string :=
  ["date_of_birth"; "credit_card_expiry_month"; "credit_card_expiry_year";
   "credit_card_cvv"; "email_prefix"; "email_suffix"].

Definition profile_exclusions : list string :=
  ["payment_options"; "house_number"].

(** The two closing loops of [get_search_strings]:
    [for key, val in d.items(): if key not in exclusions and
     isinstance(val, str): search_strings.append(val)]. *)
Definition append_fields (exclusions : list string) (d : Dict.t pyval)
    (search_strings : list pyval) : list pyval :=
  fold_left
    (fun acc (item : string * pyval) =>
       let (key, val) := item in
       if negb (name_in key exclusions) && isinstance_str val
       then acc ++ [val] else acc)
    (Dict.items d) search_strings.

Definition get_search_strings (general profile : Dict.t pyval) (site : string)
  : outcome (list pyval) :=
  (let search_strings : list pyval := [] in
   let email_prefix := Dict.get_default general "email_prefix" (PStr "") in
   let email_suffix := Dict.get_default general "email_suffix" (PStr "") in
   let email_basic := fstring [format_value email_prefix; "@"; format_value email_suffix] in
   let email_variant :=
     fstring [format_value email_prefix; "+"; site; "@"; format_value email_suffix] in
   let search_strings := search_strings ++ [PStr email_basic] in
   let search_strings := search_strings ++ [PStr email_variant] in
   let first_name := Dict.get_default general "first_name" (PStr "") in
   let last_name := Dict.get_default general "last_name" (PStr "") in
   let full_name :=
     PyStr.strip (fstring [format_value first_name; " "; format_value last_name]) in
   let search_strings := search_strings ++ [PStr full_name] in
   let phone_number := Dict.get_default profile "local_format" PNone in
   let international_phone_number :=
     Dict.get_default profile "international_format" PNone in
   international_phone_number_stripped <-
     py_slice_from 1 international_phone_number ;;
   let search_strings := search_strings ++ [phone_number] in
   let search_strings := search_strings ++ [international_phone_number] in
   let search_strings := search_strings ++ [international_phone_number_stripped] in
   let country_code := Dict.get_default profile "country_code" PNone in
   search_strings <-
     (if pyval_eqb country_code (PStr "+31") then
        let zip_code := Dict.get_default profile "zip_code" (PStr "") in
        zip_head <- py_slice_to 4 zip_code ;;
        zip_tail <- py_slice_from 4 zip_code ;;
        let spaced_zip := fstring [format_value zip_head; " "; format_value zip_tail] in
        Returned (search_strings ++ [PStr spaced_zip])
      else Returned search_strings) ;;
   let street := Dict.get_default profile "street" (PStr "") in
   let house_number := Dict.get_default profile "house_number" (PStr "") in
   let full_address :=
     fstring [format_value street; " "; format_value house_number] in
   let search_strings := search_strings ++ [PStr full_address] in
   let credit_card_expiry_month :=
     Dict.get_default general "credit_card_expiry_month" (PStr "") in
   let credit_card_expiry_year :=
     Dict.get_default general "credit_card_expiry_year" (PStr "") in
   let expiry_date :=
     fstring [format_value credit_card_expiry_month; "/";
              format_value credit_card_expiry_year] in
   let search_strings := search_strings ++ [PStr expiry_date] in
   let credit_card_number := Dict.get_default general "credit_card_number" (PStr "") in
   cc_no_spaces <- py_replace_spaces credit_card_number ;;
   let search_strings := search_strings ++ [PStr cc_no_spaces] in
   let search_strings := append_fields general_exclusions general search_strings in
   let search_strings := append_fields profile_exclusions profile search_strings in
   Returned search_strings)%outcome.

(** ** The layered detector and the record of its calls *)

(** The five check operations of the detector. *)
Inductive check_op : Type :=
| check_url
| check_referrer_str
| check_post_data
| check_location_header
| check_cookie_str.

(** A match: transform names, then the matched search string. *)
Definition match_tuple : Type := list string.

(** One call of a check operation on one string. *)
Definition call : Type := (check_op * string)%type.

(** A detector instance: what each operation answers on each string. *)
Definition detector : Type := check_op -> string -> list match_tuple.

(** A computation: its outcome and the detector calls it made, in order. *)
Definition M (A : Type) : Type := (outcome A * list call)%type.

Definition ret {A : Type} (a : A) : M A := (Returned a, []).

Definition raise {A : Type} (e : exn) : M A := (Raised e, []).

Definition bind {A B : Type} (m : M A) (f : A -> M B) : M B :=
  match m with
  | (Returned a, calls) =>
      match f a with
      | (r, calls') => (r, calls ++ calls')
      end
  | (Raised e, calls) => (Raised e, calls)
  end.

Definition lift {A : Type} (o : outcome A) : M A := (o, []).

(** [leak_detector.op(content)] *)
Definition invoke (leak_detector : detector) (op : check_op) (content : string)
  : M (list match_tuple) :=
  (Returned (leak_detector op content), [(op, content)]).

Declare Scope detect_scope.
Delimit Scope detect_scope with detect.
Notation "x <- m ;; k" := (bind m (fun x => k))
  (at level 61, m at next level, right associativity) : detect_scope.

(** [for x in l: s = body(s, x)] *)
Fixpoint for_each {A S : Type} (body : S -> A -> M S) (l : list A) (s : S) : M S :=
  match l with
  | [] => ret s
  | x :: r => (s' <- body s x ;; for_each body r s')%detect
  end.

(** ** DetectionOrchestrator *)

Record LeakRecord : Type := {
  leaked_value : string;
  encoding_or_hash : string;
  leak_method : string;
  timestamp : string
}.

Definition record_leak (encoding_or_hash method leaked_value timestamp : string)
  : LeakRecord :=
  Build_LeakRecord leaked_value encoding_or_hash method timestamp.

(** The body of the loop over the results in [check_field]. *)
Definition check_result (field timestamp : string)
    (leak_details : list LeakRecord) (result : match_tuple) : list LeakRecord :=
  if (length result =? 4)%nat then
    let encoding_or_hash_chain := PyStr.join "-" (removelast result) in
    let leaked_value := last result "" in
    leak_details ++ [record_leak encoding_or_hash_chain field leaked_value timestamp]
  else if (length result =? 3)%nat then
    let encoding_or_hash_chain := PyStr.join "-" (removelast result) in
    let leaked_value := last result "" in
    leak_details ++ [record_leak encoding_or_hash_chain field leaked_value timestamp]
  else if (length result =? 2)%nat then
    let encoding_or_hash_chain := nth 0 result "" in
    let leaked_value := nth 1 result "" in
    leak_details ++ [record_leak encoding_or_hash_chain field leaked_value timestamp]
  else leak_details.

Definition check_field (field : string) (content : option string)
    (method : string -> M (list match_tuple)) (timestamp : string)
  : M (list LeakRecord) :=
  let leak_details : list LeakRecord := [] in
  match content with
  | Some (String _ _ as content) =>
      (results <- method content ;;
       ret (fold_left (check_result field timestamp) results leak_details))%detect
  | _ => ret leak_details
  end.

(** ** FieldExtractor *)

Record header : Type := {
  header_name : string;
  header_value : string
}.

Record cookie : Type := {
  cookie_name : pyval;
  cookie_value : pyval
}.

(** One entry of a capture.  [utcnow] is what
    [datetime.utcnow().isoformat()] gives when the loop reaches the
    entry: the default of [startedDateTime] is computed for every entry. *)
Record har_entry : Type := {
  startedDateTime : option string;
  utcnow : string;
  request_url : option string;
  request_headers : list header;
  request_postData_text : option string;
  response_headers : list header;
  cookies : list cookie
}.

Fixpoint extract_header_value (headers : list header) (name : string)
  : option string :=
  match headers with
  | [] => None
  | header :: rest =>
      if String.eqb (PyStr.lower (header_name header)) (PyStr.lower name)
      then Some (header_value header)
      else extract_header_value rest name
  end.

(** ** ResultAggregator *)

(** What [tldextract.extract] gives for a URL. *)
Record ExtractResult : Type := {
  subdomain : string;
  domain : string;
  suffix : string
}.

Record leak_entry : Type := {
  leak_domain : string;
  data_leaked : list LeakRecord
}.

Record site_entry : Type := {
  website : string;
  leaks : list leak_entry
}.

(** The variables of the loop of [process_har_and_check_for_leaks] that
    live across entries: the dict [leaks] and [entry_url_domain], which
    is unbound until an entry with a URL assigns it. *)
Record loop_state : Type := {
  st_leaks : Dict.t (list LeakRecord);
  st_entry_url_domain : option string
}.

Section Pipeline.

(** The collaborators: [tldextract.extract] and the constructor of
    [LeakDetector.LeakDetector] (search strings, encoding layers, hash
    layers; the encoding and hash sets are the library's constants). *)
Variable tldextract_extract : string -> ExtractResult.
Variable LeakDetector_new : list pyval -> nat -> nat -> detector.

Definition MAX_LEAK_DETECTION_LAYERS : nat := 3.

Definition extract_domain (url : string) : string :=
  let extract := tldextract_extract url in
  fstring [domain extract; "."; suffix extract].

Definition initialize_leak_detector (search_strings : list pyval) : detector :=
  LeakDetector_new search_strings
    MAX_LEAK_DETECTION_LAYERS MAX_LEAK_DETECTION_LAYERS.

(** The loop over the attached cookies. *)
Definition check_cookies (leak_detector : detector) (timestamp : string)
    (cookies : list cookie) (all_leaks : list LeakRecord)
  : M (list LeakRecord) :=
  for_each
    (fun all_leaks cookie =>
       let cookie_str :=
         fstring [format_value (cookie_name cookie); "=";
                  format_value (cookie_value cookie)] in
       (found <- check_field "Cookies" (Some cookie_str)
                   (invoke leak_detector check_cookie_str) timestamp ;;
        ret (all_leaks ++ found))%detect)
    cookies all_leaks.

(** The checks of one entry: the five fields, then the cookies. *)
Definition check_entry (leak_detector : detector) (timestamp : string)
    (entry : har_entry) : M (list LeakRecord) :=
  (let all_leaks : list LeakRecord := [] in
   found <- check_field "url" (request_url entry)
              (invoke leak_detector check_url) timestamp ;;
   let all_leaks := all_leaks ++ found in
   found <- check_field "referrer"
              (extract_header_value (request_headers entry) "Referer")
              (invoke leak_detector check_referrer_str) timestamp ;;
   let all_leaks := all_leaks ++ found in
   found <- check_field "postData" (request_postData_text entry)
              (invoke leak_detector check_post_data) timestamp ;;
   let all_leaks := all_leaks ++ found in
   found <- check_field "location"
              (extract_header_value (response_headers entry) "Location")
              (invoke leak_detector check_location_header) timestamp ;;
   let all_leaks := all_leaks ++ found in
   found <- check_field "setCookie"
              (extract_header_value (response_headers entry) "Set-Cookie")
              (invoke leak_detector check_cookie_str) timestamp ;;
   let all_leaks := all_leaks ++ found in
   check_cookies leak_detector timestamp (cookies entry) all_leaks)%detect.

(** The timestamp of an entry. *)
Definition entry_timestamp (entry : har_entry) : string :=
  match startedDateTime entry with
  | Some t => t
  | None => fstring [utcnow entry; "Z"]
  end.

(** The body of the loop over the entries. *)
Definition process_entry (leak_detector : detector) (st : loop_state)
    (entry : har_entry) : M loop_state :=
  (let leaks := st_leaks st in
   let timestamp := entry_timestamp entry in
   let entry_url := request_url entry in
   let entry_url_domain :=
     match entry_url with
     | Some (String _ _ as entry_url) =>
         if PyStr.startswith entry_url "blob:" then Some "blob-url"
         else Some (extract_domain entry_url)
     | _ => st_entry_url_domain st
     end in
   all_leaks <- check_entry leak_detector timestamp entry ;;
   match all_leaks with
   | [] => ret (Build_loop_state leaks entry_url_domain)
   | _ :: _ =>
       match entry_url_domain with
       | None => raise UnboundLocalError
       | Some key =>
           let leaks :=
             if negb (Dict.mem leaks key) then Dict.set leaks key [] else leaks in
           let leaks :=
             Dict.set leaks key (Dict.get_default leaks key [] ++ all_leaks) in
           ret (Build_loop_state leaks entry_url_domain)
       end
   end)%detect.

(** [entries] is the list under [log.entries] of the capture file. *)
Definition process_har_and_check_for_leaks (entries : list har_entry)
    (site : string) (leak_detector : detector)
  : M (Dict.t (list LeakRecord)) :=
  (let leaks : Dict.t (list LeakRecord) := [] in
   st <- for_each (process_entry leak_detector) entries
           (Build_loop_state leaks None) ;;
   ret (st_leaks st))%detect.

(** ** ResultFormatter *)

Definition format_site_results (site : string)
    (leaks : Dict.t (list LeakRecord)) : site_entry :=
  Build_site_entry site
    (fold_left
       (fun acc (item : string * list LeakRecord) =>
          let (domain, leak_list) := item in
          acc ++ [Build_leak_entry domain leak_list])
       (Dict.items leaks) []).

(** ** The pipeline over all sites

    [listing] is the base folder: the names [os.listdir] gives, each
    with the entries of its [traffic.har] when the name is a directory
    that holds the file, and [None] otherwise.  The result is the list
    written to the results file, or [None] when no file is written. *)
Definition process_site (site_country_map : Dict.t string)
    (general : Dict.t pyval) (profiles : Dict.t (Dict.t pyval))
    (final_results : list site_entry)
    (item : string * option (list har_entry)) : M (list site_entry) :=
  (let (site, har) := item in
   match har with
   | Some entries =>
       let country := Dict.get_default site_country_map site "dutch" in
       let profile := Dict.get_default profiles country [] in
       search_strings <- lift (get_search_strings general profile site) ;;
       let leak_detector := initialize_leak_detector search_strings in
       site_leaks <- process_har_and_check_for_leaks entries site leak_detector ;;
       match site_leaks with
       | [] => ret final_results
       | _ :: _ =>
           let formatted_results := format_site_results site site_leaks in
           ret (final_results ++ [formatted_results])
       end
   | None => ret final_results
   end)%detect.

Definition process_all_hars_and_check_for_leaks
    (listing : list (string * option (list har_entry)))
    (site_country_map : Dict.t string)
    (general : Dict.t pyval) (profiles : Dict.t (Dict.t pyval))
  : M (option (list site_entry)) :=
  (let final_results : list site_entry := [] in
   final_results <- for_each (process_site site_country_map general profiles)
                      listing final_results ;;
   match final_results with
   | [] => ret None
   | _ :: _ => ret (Some final_results)
   end)%detect.

End Pipeline.

(** ** The site-language mapping file *)

(** [load_website_language_map] returns the map, or stops on the
    [StopIteration] of [next(reader)] when the file has no row. *)
Inductive load_result : Type :=
| Loaded (site_country_map : Dict.t string)
| StopIteration.

(** The body of the loop over the rows. *)
Definition load_row (site_country_map : Dict.t string) (row : list string)
  : Dict.t string :=
  if (2 <=? length row)%nat then
    let site := PyStr.strip (nth 0 row "") in
    let country := PyStr.lower (PyStr.strip (nth 1 row "")) in
    Dict.set site_country_map site country
  else site_country_map.

(** [rows] is what [csv.reader(f, delimiter=";")] yields for the file,
    each row a list of fields. *)
Definition load_website_language_map (rows : list (list string)) : load_result :=
  let site_country_map : Dict.t string := [] in
  match rows with
  | [] => StopIteration
  | _ :: rows => Loaded (fold_left load_row rows site_country_map)
  end.

(** ** Reference definitions *)

(** The values of the string-valued fields of [d] whose key is outside
    [exclusions], in the order of [d]. *)
Definition fields_outside (exclusions : list string) (d : Dict.t pyval)
  : list pyval :=
  map snd
    (filter (fun item : string * pyval =>
               negb (name_in (fst item) exclusions) && isinstance_str (snd item))
            d).

(** The fields of [general] that a special rule of [get_search_strings]
    reads and that [general_exclusions] does not list. *)
Definition special_rule_fields : list string :=
  ["first_name"; "last_name"; "credit_card_number"].

(** The records one match tuple adds in [check_field]. *)
Definition leaks_of_result (field timestamp : string) (result : match_tuple)
  : list LeakRecord :=
  check_result field timestamp [] result.

(** A detection input: the field name, the check operation and the
    string handed to it. *)
Definition detection_input : Type := (string * check_op * string)%type.

Definition input_call (i : detection_input) : call :=
  match i with (_, op, content) => (op, content) end.

Definition input_leaks (leak_detector : detector) (timestamp : string)
    (i : detection_input) : list LeakRecord :=
  match i with
  | (field, op, content) =>
      flat_map (leaks_of_result field timestamp) (leak_detector op content)
  end.

(** The input a field gives rise to: none when its content is [None] or
    empty. *)
Definition field_input (field : string) (op : check_op) (content : option string)
  : list detection_input :=
  match content with
  | Some (String _ _ as content) => [(field, op, content)]
  | _ => []
  end.

(** The five extracted fields of an entry, in the order they are checked. *)
Definition extracted_fields (entry : har_entry)
  : list (string * check_op * option string) :=
  [("url", check_url, request_url entry);
   ("referrer", check_referrer_str,
    extract_header_value (request_headers entry) "Referer");
   ("postData", check_post_data, request_postData_text entry);
   ("location", check_location_header,
    extract_header_value (response_headers entry) "Location");
   ("setCookie", check_cookie_str,
    extract_header_value (response_headers entry) "Set-Cookie")].

Definition field_inputs (entry : har_entry) : list detection_input :=
  flat_map (fun f : string * check_op * option string =>
              match f with (field, op, content) => field_input field op content end)
           (extracted_fields entry).

(** ["{name}={value}"] of one cookie *)
Definition cookie_string (c : cookie) : string :=
  fstring [format_value (cookie_name c); "="; format_value (cookie_value c)].

Definition cookie_input (c : cookie) : detection_input :=
  ("Cookies", check_cookie_str, cookie_string c).

Definition field_names : list string :=
  ["url"; "referrer"; "postData"; "location"; "setCookie"; "Cookies"].

(** All the detection inputs of an entry: the non-empty fields, then one
    per cookie. *)
Definition detection_inputs (entry : har_entry) : list detection_input :=
  field_inputs entry ++ map cookie_input (cookies entry).

(** Whether the request URL of an entry is present and not empty. *)
Definition has_url (entry : har_entry) : bool :=
  match request_url entry with
  | Some (String _ _) => true
  | _ => false
  end.

Definition initial_state : loop_state := Build_loop_state [] None.

(** The domain key of a URL: the sentinel for a blob URL, the eTLD+1
    otherwise. *)
Definition domain_key (tldextract_extract : string -> ExtractResult)
    (url : string) : string :=
  if PyStr.startswith url "blob:" then "blob-url"
  else extract_domain tldextract_extract url.

(** What [entry_url_domain] holds after an entry. *)
Definition domain_after (tldextract_extract : string -> ExtractResult)
    (bound : option string) (entry : har_entry) : option string :=
  match request_url entry with
  | Some (String _ _ as url) => Some (domain_key tldextract_extract url)
  | _ => bound
  end.

(** The dict [leaks] after the leaks of an entry are added under [key]. *)
Definition add_leaks (leaks : Dict.t (list LeakRecord)) (key : string)
    (all_leaks : list LeakRecord) : Dict.t (list LeakRecord) :=
  let leaks := if negb (Dict.mem leaks key) then Dict.set leaks key [] else leaks in
  Dict.set leaks key (Dict.get_default leaks key [] ++ all_leaks).

(** The profile [process_site] selects for a site. *)
Definition site_profile (site_country_map : Dict.t string)
    (profiles : Dict.t (Dict.t pyval)) (site : string) : Dict.t pyval :=
  Dict.get_default profiles (Dict.get_default site_country_map site "dutch") [].

(** The part of [process_site] that computes [site_leaks]: the search
    strings, the detector, the capture. *)
Definition site_run (tldextract_extract : string -> ExtractResult)
    (LeakDetector_new : list pyval -> nat -> nat -> detector)
    (site_country_map : Dict.t string) (general : Dict.t pyval)
    (profiles : Dict.t (Dict.t pyval)) (site : string) (entries : list har_entry)
  : M (Dict.t (list LeakRecord)) :=
  (search_strings <-
     lift (get_search_strings general
             (site_profile site_country_map profiles site) site) ;;
   process_har_and_check_for_leaks tldextract_extract entries site
     (initialize_leak_detector LeakDetector_new search_strings))%detect.

(** What [process_site] appends to [final_results] for given [site_leaks]. *)
Definition site_result (site : string) (site_leaks : Dict.t (list LeakRecord))
  : list site_entry :=
  match site_leaks with
  | [] => []
  | _ :: _ => [format_site_results site site_leaks]
  end.

(** What one name of the base folder adds to [final_results]. *)
Definition site_results (tldextract_extract : string -> ExtractResult)
    (LeakDetector_new : list pyval -> nat -> nat -> detector)
    (site_country_map : Dict.t string) (general : Dict.t pyval)
    (profiles : Dict.t (Dict.t pyval))
    (item : string * option (list har_entry)) : list site_entry :=
  match item with
  | (site, Some entries) =>
      match fst (site_run tldextract_extract LeakDetector_new site_country_map
                   general profiles site entries) with
      | Returned site_leaks => site_result site site_leaks
      | Raised _ => []
      end
  | (_, None) => []
  end.

(** Every group of a dict of leaks holds a record. *)
Definition groups_nonempty (leaks : Dict.t (list LeakRecord)) : Prop :=
  Forall (fun group : string * list LeakRecord => snd group <> []) leaks.

(** The fields of [general] appended individually if, as well as the
    keys of [general_exclusions], the keys read by a special rule were
    left out. *)
Definition fields_outside_rules (general : Dict.t pyval) : list pyval :=
  fields_outside (general_exclusions ++ special_rule_fields) general.

(** ** Sample data *)

Definition ex_general : Dict.t pyval :=
  [("first_name", PStr "Ann"); ("last_name", PStr "Lee");
   ("credit_card_number", PStr "4111 1111"); ("date_of_birth", PStr "01-02-1990");
   ("gender", PStr "female"); ("age", PInt 33)].

Definition ex_profile : Dict.t pyval :=
  [("local_format", PStr "0612345678"); ("international_format", PStr "+31612345678");
   ("country_code", PStr "+31"); ("zip_code", PStr "1234AB");
   ("street", PStr "Dam"); ("house_number", PStr "1")].

(** A detector that answers every call with the same five tuples, of
    lengths 4, 3, 2, 1 and 0. *)
Definition sample_results : list match_tuple :=
  [["urlencode"; "md5"; "sha1"; "Ann Lee"]; ["base64"; "md5"; "Ann"];
   ["sha256"; "Lee"]; ["Ann Lee"]; []].

Definition every_shape_detector : detector := fun _ _ => sample_results.

(** A detector that knows three leaking strings. *)
Definition sample_detector : detector :=
  fun op content =>
    match op with
    | check_url =>
        if String.eqb content "https://ads.tracker.net/p?u=QW5uIExlZQ"
        then [["base64"; "Ann Lee"]] else []
    | check_post_data =>
        if String.eqb content "name=Ann+Lee" then [["urlencode"; "Ann Lee"]] else []
    | check_cookie_str =>
        if String.eqb content "uid=Lee" then [["md5"; "sha1"; "Lee"]] else []
    | _ => []
    end.

Definition sample_LeakDetector_new : list pyval -> nat -> nat -> detector :=
  fun _ _ _ => sample_detector.

Definition sample_extract (url : string) : ExtractResult :=
  if prefix "https://ads.tracker.net/" url
  then Build_ExtractResult "ads" "tracker" "net"
  else Build_ExtractResult "www" "example" "com".

Definition blank_entry : har_entry :=
  Build_har_entry (Some "2024-05-01T10:00:00Z") "2024-05-01T10:00:01" None [] None [] [].

(** An entry with a URL that leaks. *)
Definition entry_tracker : har_entry :=
  Build_har_entry (Some "2024-05-01T10:00:00Z") "2024-05-01T10:00:01"
    (Some "https://ads.tracker.net/p?u=QW5uIExlZQ")
    [Build_header "referer" "https://www.example.com/"] None [] [].

(** An entry with a URL and nothing that leaks. *)
Definition entry_quiet : har_entry :=
  Build_har_entry None "2024-05-01T10:00:02"
    (Some "https://www.example.com/") [] (Some "") [] [].

(** An entry with a blob URL and a leaking body. *)
Definition entry_blob : har_entry :=
  Build_har_entry (Some "2024-05-01T10:00:03Z") "2024-05-01T10:00:04"
    (Some "blob:https://www.example.com/1f0c") [] (Some "name=Ann+Lee") [] [].

(** An entry without a URL and with two cookies, one of which leaks. *)
Definition entry_no_url : har_entry :=
  Build_har_entry (Some "2024-05-01T10:00:05Z") "2024-05-01T10:00:06"
    None [] None []
    [Build_cookie (PStr "uid") (PStr "Lee"); Build_cookie (PStr "sid") PNone].

(** A base folder: a site whose capture leaks, a plain file, a site
    whose capture does not leak. *)
Definition sample_listing : list (string * option (list har_entry)) :=
  [("shop.example", Some [entry_tracker; entry_no_url]);
   ("notes.txt", None);
   ("quiet.example", Some [entry_quiet])].

Definition sample_site_country_map : Dict.t string :=
  [("shop.example", "dutch")].

Definition sample_profiles : Dict.t (Dict.t pyval) :=
  [("dutch", ex_profile)].

(** The records the sample detector finds in the sample entries. *)
Definition leak_in_url : LeakRecord :=
  Build_LeakRecord "Ann Lee" "base64" "url" "2024-05-01T10:00:00Z".

Definition leak_in_body : LeakRecord :=
  Build_LeakRecord "Ann Lee" "urlencode" "postData" "2024-05-01T10:00:03Z".

Definition leak_in_cookie : LeakRecord :=
  Build_LeakRecord "Lee" "md5-sha1" "Cookies" "2024-05-01T10:00:05Z".

Definition sample_report : site_entry :=
  Build_site_entry "shop.example"
    [Build_leak_entry "tracker.net" [leak_in_url; leak_in_cookie]].

(** ** Reference definitions for the search strings *)

(** The strings of the special rules of [get_search_strings], given the
    international phone number [international], the card number [card]
    and the strings [zip] of the zip-code rule. *)
Definition special_strings (general profile : Dict.t pyval) (site : string)
    (international card : string) (zip : list pyval) : list pyval :=
  [PStr (fstring [format_value (Dict.get_default general "email_prefix" (PStr ""));
                  "@";
                  format_value (Dict.get_default general "email_suffix" (PStr ""))]);
   PStr (fstring [format_value (Dict.get_default general "email_prefix" (PStr ""));
                  "+"; site; "@";
                  format_value (Dict.get_default general "email_suffix" (PStr ""))]);
   PStr (PyStr.strip
           (fstring [format_value (Dict.get_default general "first_name" (PStr ""));
                     " ";
                     format_value (Dict.get_default general "last_name" (PStr ""))]));
   Dict.get_default profile "local_format" PNone;
   PStr international;
   PStr (PyStr.slice_from 1 international)]
  ++ zip
  ++ [PStr (fstring [format_value (Dict.get_default profile "street" (PStr ""));
                     " ";
                     format_value (Dict.get_default profile "house_number" (PStr ""))]);
      PStr (fstring
              [format_value
                 (Dict.get_default general "credit_card_expiry_month" (PStr ""));
               "/";
               format_value
                 (Dict.get_default general "credit_card_expiry_year" (PStr ""))]);
      PStr (PyStr.remove_spaces card)].

(** The strings of the zip-code rule: one when the country code is
    ["+31"], none otherwise. *)
Definition zip_strings (profile : Dict.t pyval) (zip : list pyval) : Prop :=
  (Dict.get_default profile "country_code" PNone = PStr "+31" /\
   exists z,
     Dict.get_default profile "zip_code" (PStr "") = PStr z /\
     zip = [PStr (fstring [PyStr.slice_to 4 z; " "; PyStr.slice_from 4 z])]) \/
  (Dict.get_default profile "country_code" PNone <> PStr "+31" /\ zip = []).

(** The characters of a string. *)
Definition chars (s : string) : list ascii := list_ascii_of_string s.

(** The search strings of the sample records for the site
    ["example.com"]. *)
Definition ex_strings : list pyval :=
  [PStr "@"; PStr "+example.com@"; PStr "Ann Lee"; PStr "0612345678";
   PStr "+31612345678"; PStr "31612345678"; PStr "1234 AB"; PStr "Dam 1";
   PStr "/"; PStr "41111111"; PStr "Ann"; PStr "Lee"; PStr "4111 1111";
   PStr "female"; PStr "0612345678"; PStr "+31612345678"; PStr "+31";
   PStr "1234AB"; PStr "Dam"].

(** ** Reference definitions for the checks *)

(** Whether the name of a header is [name], letter case apart. *)
Definition header_matches (name : string) (h : header) : bool :=
  String.eqb (PyStr.lower (header_name h)) (PyStr.lower name).

(** Whether a match tuple has one of the lengths [check_field] handles. *)
Definition handled_length (result : match_tuple) : bool :=
  ((2 <=? length result) && (length result <=? 4))%nat.

(** The record of a tuple: all elements but the last joined by hyphens,
    and the last element. *)
Definition normalized_record (field timestamp : string) (result : match_tuple)
  : LeakRecord :=
  record_leak (PyStr.join "-" (removelast result)) field (last result "") timestamp.

(** ** Reference definitions for a capture *)

(** The records and the calls of the checks of one entry. *)
Definition entry_leaks (leak_detector : detector) (entry : har_entry)
  : list LeakRecord :=
  flat_map (input_leaks leak_detector (entry_timestamp entry))
    (detection_inputs entry).

Definition entry_calls (entry : har_entry) : list call :=
  map input_call (detection_inputs entry).

(** The records a capture puts under [key]: those of the entries whose
    domain, their own or the one left by an earlier entry, is [key], in
    the order of the capture.  [bound] is what [entry_url_domain] holds
    before the first entry. *)
Fixpoint attributed (tldextract_extract : string -> ExtractResult)
    (leak_detector : detector) (key : string) (bound : option string)
    (entries : list har_entry) : list LeakRecord :=
  match entries with
  | [] => []
  | entry :: rest =>
      let bound' := domain_after tldextract_extract bound entry in
      match bound' with
      | Some k => if String.eqb k key then entry_leaks leak_detector entry else []
      | None => []
      end
      ++ attributed tldextract_extract leak_detector key bound' rest
  end.

(** A capture: a blob entry, a tracker entry, an entry without a URL,
    the blob entry again; its dict of leaks and its calls. *)
Definition sample_capture : list har_entry :=
  [entry_blob; entry_tracker; entry_no_url; entry_blob].

Definition sample_capture_leaks : Dict.t (list LeakRecord) :=
  [("blob-url", [leak_in_body; leak_in_body]);
   ("tracker.net", [leak_in_url; leak_in_cookie])].

Definition sample_capture_calls : list call :=
  [(check_url, "blob:https://www.example.com/1f0c");
   (check_post_data, "name=Ann+Lee");
   (check_url, "https://ads.tracker.net/p?u=QW5uIExlZQ");
   (check_referrer_str, "https://www.example.com/");
   (check_cookie_str, "uid=Lee"); (check_cookie_str, "sid=None");
   (check_url, "blob:https://www.example.com/1f0c");
   (check_post_data, "name=Ann+Lee")].

(** ** Reference definitions for the mapping file *)

(** Whether a row assigns a country to [site]. *)
Definition row_is_for (site : string) (row : list string) : bool :=
  ((2 <=? length row)%nat && String.eqb (PyStr.strip (nth 0 row "")) site)%bool.

(** The country of the last row that assigns one to [site]. *)
Definition last_country (site : string) (rows : list (list string))
  : option string :=
  match find (row_is_for site) (rev rows) with
  | Some row => Some (PyStr.lower (PyStr.strip (nth 1 row "")))
  | None => None
  end.

(** The rows of a mapping file: a header, three sites, a short row, and
    the first site again. *)
Definition sample_rows : list (list string) :=
  [["site"; "language"];
   ["shop.example "; " Dutch"];
   ["news.example"; "GERMAN"; "extra"];
   ["broken"];
   [];
   ["shop.example"; "French "]].

(** ** Properties of the search-string generation *)

Lemma append_fields_app (exclusions : list string) (d : Dict.t pyval) :
  forall acc, append_fields exclusions d acc = acc ++ fields_outside exclusions d.
Proof.
  unfold append_fields, fields_outside, Dict.items.
  induction d as [| [key val] d IH]; intros acc; simpl.
  - now rewrite app_nil_r.
  - destruct (negb (name_in key exclusions) && isinstance_str val); simpl.
    + rewrite IH, <- app_assoc. reflexivity.
    + apply IH.
Qed.

Lemma name_in_spec (key : string) (names : list string) :
  name_in key names = true <-> In key names.
Proof.
  unfold name_in. rewrite existsb_exists. split.
  - intros [x [Hin Heq]]. apply String.eqb_eq in Heq. now subst.
  - intros Hin. exists key. split; [assumption | apply String.eqb_refl].
Qed.

Lemma fields_outside_spec (exclusions : list string) (d : Dict.t pyval) (v : pyval) :
  In v (fields_outside exclusions d) <->
  exists key s, v = PStr s /\ In (key, v) d /\ ~ In key exclusions.
Proof.
  unfold fields_outside. rewrite in_map_iff. split.
  - intros [[key val] [Hv Hin]]. simpl in Hv. subst val.
    apply filter_In in Hin. destruct Hin as [Hin Hcond]. simpl in Hcond.
    apply andb_true_iff in Hcond. destruct Hcond as [Hex Hstr].
    destruct v as [| b | z | s]; try discriminate.
    exists key, s. repeat split; try assumption.
    intros Hk. apply name_in_spec in Hk. rewrite Hk in Hex. discriminate.
  - intros [key [s [Hv [Hin Hex]]]]. exists (key, v). split; [reflexivity |].
    apply filter_In. split; [assumption |]. simpl. subst v. simpl.
    rewrite andb_true_r. destruct (name_in key exclusions) eqn:E; [| reflexivity].
    apply name_in_spec in E. contradiction.
Qed.

(** C1 (the code departs from the claim): with the empty profile that
    stands for a country absent from the profile table,
    [get_search_strings] never returns.  [profile.get("international_format")]
    is [None], and slicing it raises [TypeError], whatever the general
    record and the site are. *)
Theorem get_search_strings_empty_profile_raises :
  forall (general : Dict.t pyval) (site : string),
    get_search_strings general [] site = Raised TypeError.
Proof.
  intros general site. reflexivity.
Qed.

(** C2 (amended): when [get_search_strings] returns, its result is the
    nine or ten strings of the special rules, then the value of every
    string-valued field of [general] whose key is outside
    [general_exclusions], in the order of the record, then the same for
    [profile] and [profile_exclusions].  The appended values are exactly
    the string values stored under a non-excluded key; so [first_name],
    [last_name] and [credit_card_number], which [general_exclusions]
    does not list, are appended individually too. *)
Theorem get_search_strings_appends_general_fields :
  forall (general profile : Dict.t pyval) (site : string) (l : list pyval),
    get_search_strings general profile site = Returned l ->
    (exists head,
        (length head = 9 \/ length head = 10) /\
        l = head ++ fields_outside general_exclusions general
                 ++ fields_outside profile_exclusions profile) /\
    (forall v,
        In v (fields_outside general_exclusions general) <->
        exists key s, v = PStr s /\ In (key, v) general /\
                      ~ In key general_exclusions) /\
    (forall key s,
        In key special_rule_fields -> In (key, PStr s) general ->
        In (PStr s) (fields_outside general_exclusions general)).
Proof.
  intros general profile site l H. split; [| split].
  - unfold get_search_strings in H. cbv zeta in H.
    destruct (py_slice_from 1 (Dict.get_default profile "international_format" PNone))
      as [stripped |]; cbn [obind] in H; [| discriminate].
    destruct (pyval_eqb (Dict.get_default profile "country_code" PNone) (PStr "+31")).
    + destruct (py_slice_to 4 (Dict.get_default profile "zip_code" (PStr "")))
        as [zh |]; cbn [obind] in H; [| discriminate].
      destruct (py_slice_from 4 (Dict.get_default profile "zip_code" (PStr "")))
        as [zt |]; cbn [obind] in H; [| discriminate].
      destruct (py_replace_spaces (Dict.get_default general "credit_card_number" (PStr "")))
        as [cc |]; cbn [obind] in H; [| discriminate].
      rewrite !append_fields_app in H. injection H as <-.
      eexists [_; _; _; _; _; _; _; _; _; _].
      split; [right; reflexivity | reflexivity].
    + cbn [obind] in H.
      destruct (py_replace_spaces (Dict.get_default general "credit_card_number" (PStr "")))
        as [cc |]; cbn [obind] in H; [| discriminate].
      rewrite !append_fields_app in H. injection H as <-.
      eexists [_; _; _; _; _; _; _; _; _].
      split; [left; reflexivity | reflexivity].
  - intros v. apply fields_outside_spec.
  - intros key s Hkey Hin. apply fields_outside_spec.
    exists key, s. repeat split; try assumption.
    unfold special_rule_fields, general_exclusions in *. simpl in *.
    intros Hex.
    repeat (destruct Hkey as [<- | Hkey];
            [ repeat (destruct Hex as [Hex | Hex]; [discriminate |]);
              contradiction |]).
    contradiction.
Qed.

Lemma get_search_strings_appends_general_fields_witness :
  In (PStr "Lee") (fields_outside general_exclusions ex_general) /\
  exists head,
    (length head = 9 \/ length head = 10) /\
    [PStr "@"; PStr "+example.com@"; PStr "Ann Lee"; PStr "0612345678";
     PStr "+31612345678"; PStr "31612345678"; PStr "1234 AB"; PStr "Dam 1";
     PStr "/"; PStr "41111111"; PStr "Ann"; PStr "Lee"; PStr "4111 1111";
     PStr "female"; PStr "0612345678"; PStr "+31612345678"; PStr "+31";
     PStr "1234AB"; PStr "Dam"]
    = head ++ fields_outside general_exclusions ex_general
           ++ fields_outside profile_exclusions ex_profile.
Proof.
  destruct (get_search_strings_appends_general_fields ex_general ex_profile
              "example.com"
              [PStr "@"; PStr "+example.com@"; PStr "Ann Lee"; PStr "0612345678";
               PStr "+31612345678"; PStr "31612345678"; PStr "1234 AB";
               PStr "Dam 1"; PStr "/"; PStr "41111111"; PStr "Ann"; PStr "Lee";
               PStr "4111 1111"; PStr "female"; PStr "0612345678";
               PStr "+31612345678"; PStr "+31"; PStr "1234AB"; PStr "Dam"]
              eq_refl)
    as [Hshape [_ Hrules]].
  split.
  - apply (Hrules "last_name" "Lee").
    + simpl. right. left. reflexivity.
    + simpl. right. left. reflexivity.
  - exact Hshape.
Defined.

(** C2 as stated fails: [first_name], [last_name] and
    [credit_card_number] are read by a special rule and yet appended
    individually.  On the sample records the appended general fields are
    ["Ann"], ["Lee"], ["4111 1111"] and ["female"], where leaving the
    special-rule fields out would give ["female"] alone. *)
Lemma special_rule_fields_appended_again :
  get_search_strings ex_general ex_profile "example.com"
  = Returned
      ([PStr "@"; PStr "+example.com@"; PStr "Ann Lee"; PStr "0612345678";
        PStr "+31612345678"; PStr "31612345678"; PStr "1234 AB"; PStr "Dam 1";
        PStr "/"; PStr "41111111"]
       ++ [PStr "Ann"; PStr "Lee"; PStr "4111 1111"; PStr "female"]
       ++ [PStr "0612345678"; PStr "+31612345678"; PStr "+31"; PStr "1234AB";
           PStr "Dam"]) /\
  fields_outside_rules ex_general = [PStr "female"] /\
  fields_outside general_exclusions ex_general <> fields_outside_rules ex_general /\
  Dict.get ex_general "last_name" = Some (PStr "Lee").
Proof. repeat split. discriminate. Qed.

(** The empty profile comes from [profiles.get(country, {})]: a site
    whose country is not a key of the profile table stops the pipeline. *)
Lemma unknown_country_stops_pipeline
    (tldextract_extract : string -> ExtractResult)
    (LeakDetector_new : list pyval -> nat -> nat -> detector)
    (site_country_map : Dict.t string) (general : Dict.t pyval)
    (profiles : Dict.t (Dict.t pyval)) (final_results : list site_entry)
    (site : string) (entries : list har_entry) :
  Dict.get profiles (Dict.get_default site_country_map site "dutch") = None ->
  process_site tldextract_extract LeakDetector_new site_country_map general
    profiles final_results (site, Some entries)
  = (Raised TypeError, []).
Proof.
  intros Hnone. unfold process_site. cbv zeta.
  unfold Dict.get_default at 1. rewrite Hnone. reflexivity.
Qed.

(** ** The computations and their calls *)

Lemma bind_returned {A B : Type} (a : A) (calls : list call) (f : A -> M B) :
  bind (Returned a, calls) f = (fst (f a), calls ++ snd (f a)).
Proof. unfold bind. now destruct (f a). Qed.

Lemma bind_raised {A B : Type} (e : exn) (calls : list call) (f : A -> M B) :
  bind (Raised e, calls) f = (Raised e, calls).
Proof. reflexivity. Qed.

Lemma bind_returned_inv {A B : Type} (m : M A) (f : A -> M B) (b : B)
    (calls : list call) :
  bind m f = (Returned b, calls) ->
  exists a calls1 calls2,
    m = (Returned a, calls1) /\ f a = (Returned b, calls2) /\
    calls = calls1 ++ calls2.
Proof.
  destruct m as [[a | e] calls1]; [| discriminate].
  unfold bind. destruct (f a) as [r calls2] eqn:Hf. intros H.
  injection H as -> <-. now exists a, calls1, calls2.
Qed.

Lemma check_result_app (field timestamp : string) (acc : list LeakRecord)
    (result : match_tuple) :
  check_result field timestamp acc result
  = acc ++ leaks_of_result field timestamp result.
Proof.
  unfold leaks_of_result, check_result.
  destruct (length result =? 4)%nat; [reflexivity |].
  destruct (length result =? 3)%nat; [reflexivity |].
  destruct (length result =? 2)%nat; [reflexivity |].
  now rewrite app_nil_r.
Qed.

Lemma fold_check_result (field timestamp : string) (results : list match_tuple) :
  forall acc,
    fold_left (check_result field timestamp) results acc
    = acc ++ flat_map (leaks_of_result field timestamp) results.
Proof.
  induction results as [| r results IH]; intros acc; simpl.
  - now rewrite app_nil_r.
  - rewrite IH, check_result_app, <- app_assoc. reflexivity.
Qed.

(** [check_field] on a content that is [None] or empty: nothing is
    called, nothing is found. *)
Lemma check_field_skip (field : string) (content : option string)
    (method : string -> M (list match_tuple)) (timestamp : string) :
  content = None \/ content = Some "" ->
  check_field field content method timestamp = (Returned [], []).
Proof. intros [-> | ->]; reflexivity. Qed.

(** [check_field] on a non-empty content whose check returns. *)
Lemma check_field_returned (field content : string)
    (method : string -> M (list match_tuple)) (timestamp : string)
    (results : list match_tuple) (calls : list call) :
  content <> "" ->
  method content = (Returned results, calls) ->
  check_field field (Some content) method timestamp
  = (Returned (flat_map (leaks_of_result field timestamp) results), calls).
Proof.
  intros Hne Hm. destruct content as [| c rest]; [contradiction |].
  unfold check_field. rewrite Hm, bind_returned. simpl.
  rewrite fold_check_result, app_nil_r. reflexivity.
Qed.

Lemma check_field_invoke (leak_detector : detector) (field : string)
    (op : check_op) (content : option string) (timestamp : string) :
  check_field field content (invoke leak_detector op) timestamp
  = (Returned (flat_map (input_leaks leak_detector timestamp)
                        (field_input field op content)),
     map input_call (field_input field op content)).
Proof.
  destruct content as [[| c rest] |]; try reflexivity.
  rewrite (check_field_returned field (String c rest) _ timestamp
             (leak_detector op (String c rest)) [(op, String c rest)]);
    [| discriminate | reflexivity].
  simpl. now rewrite app_nil_r.
Qed.

Lemma cookie_string_nonempty (c : cookie) :
  exists ch rest, cookie_string c = String ch rest.
Proof.
  unfold cookie_string, fstring. simpl.
  destruct (format_value (cookie_name c)) as [| ch rest]; simpl; eauto.
Qed.

Lemma field_input_cookie (c : cookie) :
  field_input "Cookies" check_cookie_str (Some (cookie_string c)) = [cookie_input c].
Proof.
  unfold cookie_input. destruct (cookie_string_nonempty c) as [ch [rest ->]].
  reflexivity.
Qed.

Lemma check_cookies_spec (leak_detector : detector) (timestamp : string)
    (cookies : list cookie) :
  forall all_leaks,
    check_cookies leak_detector timestamp cookies all_leaks
    = (Returned (all_leaks
                 ++ flat_map (input_leaks leak_detector timestamp)
                      (map cookie_input cookies)),
       map input_call (map cookie_input cookies)).
Proof.
  unfold check_cookies.
  induction cookies as [| c cookies IH]; intros all_leaks.
  - simpl. now rewrite app_nil_r.
  - cbn [for_each]. fold (cookie_string c).
    rewrite check_field_invoke, field_input_cookie, bind_returned.
    cbn [ret fst snd]. rewrite bind_returned, IH. cbn [fst snd map flat_map].
    rewrite !app_nil_r, <- app_assoc. reflexivity.
Qed.

(** The checks of one entry always return: the records are those of the
    detection inputs, in order, and each input is one call. *)
Lemma check_entry_spec (leak_detector : detector) (timestamp : string)
    (entry : har_entry) :
  check_entry leak_detector timestamp entry
  = (Returned (flat_map (input_leaks leak_detector timestamp)
                        (detection_inputs entry)),
     map input_call (detection_inputs entry)).
Proof.
  unfold check_entry, detection_inputs, field_inputs, extracted_fields.
  cbv zeta. rewrite !check_field_invoke.
  repeat (rewrite bind_returned; cbn [fst snd]).
  rewrite check_cookies_spec. cbn [fst snd flat_map].
  rewrite !flat_map_app, !map_app, !app_nil_r, <- !app_assoc.
  reflexivity.
Qed.

(** ** Properties of [check_field] *)

(** C3: when the check of a non-empty content returns its tuples,
    [check_field] returns, for each tuple in order, what the tuple
    produces, and makes no call of its own.  A 4-tuple produces one
    record whose chain is the first three elements joined by hyphens and
    whose leaked value is the fourth; a 3-tuple one record with the first
    two joined and the third as value; a 2-tuple one record with the
    first as chain and the second as value. *)
Theorem check_field_normalizes_tuples :
  forall (field content : string) (method : string -> M (list match_tuple))
         (timestamp : string) (results : list match_tuple) (calls : list call),
    content <> "" ->
    method content = (Returned results, calls) ->
    exists produce : match_tuple -> list LeakRecord,
      check_field field (Some content) method timestamp
      = (Returned (flat_map produce results), calls) /\
      (forall a b c d,
          produce [a; b; c; d]
          = [{| leaked_value := d;
                encoding_or_hash := (a ++ "-" ++ b ++ "-" ++ c)%string;
                leak_method := field;
                timestamp := timestamp |}]) /\
      (forall a b c,
          produce [a; b; c]
          = [{| leaked_value := c;
                encoding_or_hash := (a ++ "-" ++ b)%string;
                leak_method := field;
                timestamp := timestamp |}]) /\
      (forall a b,
          produce [a; b]
          = [{| leaked_value := b;
                encoding_or_hash := a;
                leak_method := field;
                timestamp := timestamp |}]).
Proof.
  intros field content method timestamp results calls Hne Hm.
  exists (leaks_of_result field timestamp). split.
  - now apply check_field_returned.
  - repeat split; reflexivity.
Qed.

Lemma check_field_normalizes_tuples_witness :
  exists produce : match_tuple -> list LeakRecord,
    check_field "postData" (Some "name=Ann+Lee")
      (invoke every_shape_detector check_post_data) "2024-05-01T10:00:00Z"
    = (Returned (flat_map produce sample_results),
       [(check_post_data, "name=Ann+Lee")]) /\
    (forall a b c d,
        produce [a; b; c; d]
        = [{| leaked_value := d;
              encoding_or_hash := (a ++ "-" ++ b ++ "-" ++ c)%string;
              leak_method := "postData";
              timestamp := "2024-05-01T10:00:00Z" |}]) /\
    (forall a b c,
        produce [a; b; c]
        = [{| leaked_value := c;
              encoding_or_hash := (a ++ "-" ++ b)%string;
              leak_method := "postData";
              timestamp := "2024-05-01T10:00:00Z" |}]) /\
    (forall a b,
        produce [a; b]
        = [{| leaked_value := b;
              encoding_or_hash := a;
              leak_method := "postData";
              timestamp := "2024-05-01T10:00:00Z" |}]).
Proof.
  apply (check_field_normalizes_tuples "postData" "name=Ann+Lee"
           (invoke every_shape_detector check_post_data)
           "2024-05-01T10:00:00Z" sample_results
           [(check_post_data, "name=Ann+Lee")]).
  - discriminate.
  - reflexivity.
Defined.

Example check_field_sample_run :
  check_field "postData" (Some "name=Ann+Lee")
    (invoke every_shape_detector check_post_data) "t"
  = (Returned
       [Build_LeakRecord "Ann Lee" "urlencode-md5-sha1" "postData" "t";
        Build_LeakRecord "Ann" "base64-md5" "postData" "t";
        Build_LeakRecord "Lee" "sha256" "postData" "t"],
     [(check_post_data, "name=Ann+Lee")]).
Proof. reflexivity. Qed.

(** C9: a tuple whose length is not 2, 3 or 4 produces no record, and
    [check_field] still returns: the records are those of the other
    tuples, in order. *)
Theorem check_field_discards_other_lengths :
  forall (field content : string) (method : string -> M (list match_tuple))
         (timestamp : string) (results : list match_tuple) (calls : list call),
    content <> "" ->
    method content = (Returned results, calls) ->
    exists produce : match_tuple -> list LeakRecord,
      check_field field (Some content) method timestamp
      = (Returned (flat_map produce results), calls) /\
      (forall result,
          length result <> 2 -> length result <> 3 -> length result <> 4 ->
          produce result = []).
Proof.
  intros field content method timestamp results calls Hne Hm.
  exists (leaks_of_result field timestamp). split.
  - now apply check_field_returned.
  - intros result H2 H3 H4. unfold leaks_of_result, check_result.
    apply Nat.eqb_neq in H2, H3, H4. now rewrite H4, H3, H2.
Qed.

Lemma check_field_discards_other_lengths_witness :
  exists produce : match_tuple -> list LeakRecord,
    check_field "url" (Some "https://www.example.com/")
      (fun _ => (Returned [["Ann Lee"]; []; ["a"; "b"; "c"; "d"; "e"]], []))
      "2024-05-01T10:00:00Z"
    = (Returned (flat_map produce [["Ann Lee"]; []; ["a"; "b"; "c"; "d"; "e"]]), []) /\
    (forall result,
        length result <> 2 -> length result <> 3 -> length result <> 4 ->
        produce result = []).
Proof.
  apply (check_field_discards_other_lengths "url" "https://www.example.com/"
           (fun _ => (Returned [["Ann Lee"]; []; ["a"; "b"; "c"; "d"; "e"]], []))
           "2024-05-01T10:00:00Z" [["Ann Lee"]; []; ["a"; "b"; "c"; "d"; "e"]] []).
  - discriminate.
  - reflexivity.
Defined.

Lemma leaks_of_result_method (field timestamp : string) (result : match_tuple)
    (r : LeakRecord) :
  In r (leaks_of_result field timestamp result) -> leak_method r = field.
Proof.
  unfold leaks_of_result, check_result.
  destruct (length result =? 4)%nat; [intros [<- | []]; reflexivity |].
  destruct (length result =? 3)%nat; [intros [<- | []]; reflexivity |].
  destruct (length result =? 2)%nat; [intros [<- | []]; reflexivity |].
  intros [].
Qed.

(** C10: every record [check_field] returns carries, as [leak_method],
    the field name the call was made with, whatever the method answers. *)
Theorem leak_method_is_field_name :
  forall (field : string) (content : option string)
         (method : string -> M (list match_tuple)) (timestamp : string)
         (leak_details : list LeakRecord) (calls : list call) (r : LeakRecord),
    check_field field content method timestamp = (Returned leak_details, calls) ->
    In r leak_details ->
    leak_method r = field.
Proof.
  intros field content method timestamp leak_details calls r Hrun Hin.
  destruct content as [[| c rest] |];
    try (injection Hrun as <- _; contradiction).
  unfold check_field in Hrun.
  destruct (method (String c rest)) as [[results | e] calls'] eqn:Hm.
  - rewrite bind_returned in Hrun. cbn [ret fst snd] in Hrun.
    injection Hrun as <- _. rewrite fold_check_result in Hin. simpl in Hin.
    apply in_flat_map in Hin. destruct Hin as [result [_ Hin]].
    now apply leaks_of_result_method in Hin.
  - rewrite bind_raised in Hrun. discriminate.
Qed.

Lemma leak_method_is_field_name_witness :
  leak_method (Build_LeakRecord "Ann" "base64-md5" "postData" "t") = "postData".
Proof.
  apply (leak_method_is_field_name "postData" (Some "name=Ann+Lee")
           (invoke every_shape_detector check_post_data) "t"
           [Build_LeakRecord "Ann Lee" "urlencode-md5-sha1" "postData" "t";
            Build_LeakRecord "Ann" "base64-md5" "postData" "t";
            Build_LeakRecord "Lee" "sha256" "postData" "t"]
           [(check_post_data, "name=Ann+Lee")]).
  - reflexivity.
  - simpl. right. left. reflexivity.
Defined.

(** ** Properties of the checks of one entry *)

Lemma cookie_string_concat (c : cookie) :
  cookie_string c
  = (format_value (cookie_name c) ++ "=" ++ format_value (cookie_value c))%string.
Proof. reflexivity. Qed.

Lemma field_input_length (field : string) (op : check_op) (content : option string) :
  length (field_input field op content) <= 1.
Proof. destruct content as [[| c rest] |]; simpl; lia. Qed.

Lemma field_inputs_length (entry : har_entry) : length (field_inputs entry) <= 5.
Proof.
  unfold field_inputs, extracted_fields. cbn [flat_map].
  rewrite !length_app. cbn [length].
  pose proof (field_input_length "url" check_url (request_url entry)).
  pose proof (field_input_length "referrer" check_referrer_str
                (extract_header_value (request_headers entry) "Referer")).
  pose proof (field_input_length "postData" check_post_data
                (request_postData_text entry)).
  pose proof (field_input_length "location" check_location_header
                (extract_header_value (response_headers entry) "Location")).
  pose proof (field_input_length "setCookie" check_cookie_str
                (extract_header_value (response_headers entry) "Set-Cookie")).
  lia.
Qed.

Lemma field_input_nonempty (field : string) (op : check_op)
    (content : option string) (i : detection_input) :
  In i (field_input field op content) ->
  exists s, content = Some s /\ s <> "" /\ i = (field, op, s).
Proof.
  destruct content as [[| c rest] |]; simpl; try contradiction.
  intros [<- | []]. exists (String c rest). repeat split. discriminate.
Qed.

Lemma detection_inputs_nonempty (entry : har_entry) (i : detection_input) :
  In i (detection_inputs entry) -> snd i <> "".
Proof.
  unfold detection_inputs. rewrite in_app_iff. intros [Hin | Hin].
  - unfold field_inputs in Hin. apply in_flat_map in Hin.
    destruct Hin as [[[field op] content] [_ Hin]].
    apply field_input_nonempty in Hin. destruct Hin as [s [_ [Hs ->]]]. exact Hs.
  - apply in_map_iff in Hin. destruct Hin as [c [<- _]]. simpl.
    destruct (cookie_string_nonempty c) as [ch [rest ->]]. discriminate.
Qed.

(** C7: the loop over the cookies makes exactly one call per cookie, in
    order, each a [check_cookie_str] call on the ["{name}={value}"]
    string of that cookie alone, and adds to the leaks what each of
    these calls produces; in the calls of the whole entry they come
    after the (at most five) calls for the fields. *)
Theorem cookies_checked_one_by_one :
  forall (leak_detector : detector) (timestamp : string) (entry : har_entry),
    (forall all_leaks,
        check_cookies leak_detector timestamp (cookies entry) all_leaks
        = (Returned
             (all_leaks
              ++ flat_map
                   (fun c =>
                      flat_map (leaks_of_result "Cookies" timestamp)
                        (leak_detector check_cookie_str
                           (format_value (cookie_name c) ++ "="
                            ++ format_value (cookie_value c))%string))
                   (cookies entry)),
           map (fun c =>
                  (check_cookie_str,
                   (format_value (cookie_name c) ++ "="
                    ++ format_value (cookie_value c))%string))
               (cookies entry))) /\
    (exists field_calls,
        length field_calls <= 5 /\
        snd (check_entry leak_detector timestamp entry)
        = field_calls
          ++ map (fun c =>
                    (check_cookie_str,
                     (format_value (cookie_name c) ++ "="
                      ++ format_value (cookie_value c))%string))
                 (cookies entry)).
Proof.
  intros leak_detector timestamp entry. split.
  - intros all_leaks. rewrite check_cookies_spec, flat_map_concat_map, !map_map.
    rewrite <- flat_map_concat_map. reflexivity.
  - exists (map input_call (field_inputs entry)). split.
    + rewrite length_map. apply field_inputs_length.
    + rewrite check_entry_spec. unfold detection_inputs.
      cbn [snd]. rewrite map_app, map_map. reflexivity.
Qed.

Lemma field_input_calls (field : string) (op : check_op) (content : option string) :
  map input_call (field_input field op content)
  = match content with
    | Some (String c rest) => [(op, String c rest)]
    | _ => []
    end.
Proof. now destruct content as [[| c rest] |]. Qed.

(** C8: a field of an entry whose content is [None] or the empty string
    is skipped by [check_field], which then makes no call and returns no
    record; every call the checks of an entry make is on a non-empty
    string; and these calls are one for each of the five fields whose
    content is a non-empty string, then one for each cookie. *)
Theorem empty_field_is_not_checked :
  forall (leak_detector : detector) (timestamp : string) (entry : har_entry),
    (forall field op content,
        In (field, op, content) (extracted_fields entry) ->
        content = None \/ content = Some "" ->
        check_field field content (invoke leak_detector op) timestamp
        = (Returned [], [])) /\
    (forall op content,
        In (op, content) (snd (check_entry leak_detector timestamp entry)) ->
        content <> "") /\
    snd (check_entry leak_detector timestamp entry)
    = flat_map
        (fun f : string * check_op * option string =>
           match f with
           | (_, op, Some (String c rest)) => [(op, String c rest)]
           | _ => []
           end)
        (extracted_fields entry)
      ++ map (fun c => (check_cookie_str, cookie_string c)) (cookies entry).
Proof.
  intros leak_detector timestamp entry. split; [| split].
  - intros field op content _ Hempty. now apply check_field_skip.
  - intros op content Hin. rewrite check_entry_spec in Hin. cbn [snd] in Hin.
    apply in_map_iff in Hin. destruct Hin as [[[field op'] content'] [Heq Hin]].
    apply detection_inputs_nonempty in Hin. simpl in Heq, Hin.
    injection Heq as _ <-. exact Hin.
  - rewrite check_entry_spec. cbn [snd].
    unfold detection_inputs, field_inputs, extracted_fields.
    cbn [flat_map]. rewrite !map_app, !field_input_calls, map_map.
    reflexivity.
Qed.

Lemma empty_field_is_not_checked_witness :
  check_field "postData" (Some "") (invoke sample_detector check_post_data)
    "2024-05-01T10:00:02Z"
  = (Returned [], []) /\
  "https://www.example.com/" <> "".
Proof.
  destruct (empty_field_is_not_checked sample_detector "2024-05-01T10:00:02Z"
              entry_quiet) as [Hskip [Hcalls _]].
  split.
  - apply (Hskip "postData" check_post_data (Some "")).
    + simpl. right. right. left. reflexivity.
    + right. reflexivity.
  - apply (Hcalls check_url "https://www.example.com/").
    simpl. left. reflexivity.
Defined.

Example check_entry_no_url_run :
  check_entry sample_detector "t" entry_no_url
  = (Returned [Build_LeakRecord "Lee" "md5-sha1" "Cookies" "t"],
     [(check_cookie_str, "uid=Lee"); (check_cookie_str, "sid=None")]).
Proof. reflexivity. Qed.

Lemma detection_inputs_field_names (entry : har_entry) (i : detection_input) :
  In i (detection_inputs entry) -> In (fst (fst i)) field_names.
Proof.
  unfold detection_inputs. rewrite in_app_iff. intros [Hin | Hin].
  - unfold field_inputs in Hin. apply in_flat_map in Hin.
    destruct Hin as [[[field op] content] [Hfield Hin]].
    apply field_input_nonempty in Hin. destruct Hin as [s [_ [_ ->]]].
    unfold extracted_fields, field_names in *. cbn [fst].
    simpl in Hfield. simpl.
    repeat (destruct Hfield as [Hfield | Hfield];
            [injection Hfield as <- _ _; tauto |]).
    contradiction.
  - apply in_map_iff in Hin. destruct Hin as [c [<- _]].
    unfold field_names. simpl. tauto.
Qed.

(** In the checks of one entry, each record comes from a tuple answered
    to a detection input of the entry, and carries the field name of that
    input, one of the six. *)
Lemma check_entry_leak_methods (leak_detector : detector) (timestamp : string)
    (entry : har_entry) (all_leaks : list LeakRecord) (calls : list call)
    (r : LeakRecord) :
  check_entry leak_detector timestamp entry = (Returned all_leaks, calls) ->
  In r all_leaks ->
  exists field op content result,
    In (field, op, content) (detection_inputs entry) /\
    In (op, content) calls /\
    In result (leak_detector op content) /\
    In r (leaks_of_result field timestamp result) /\
    leak_method r = field /\
    In field field_names.
Proof.
  rewrite check_entry_spec. intros Hrun Hin. injection Hrun as <- <-.
  apply in_flat_map in Hin. destruct Hin as [[[field op] content] [Hinput Hin]].
  cbn [input_leaks] in Hin. apply in_flat_map in Hin.
  destruct Hin as [result [Hresult Hin]].
  exists field, op, content, result. repeat split; try assumption.
  - apply in_map_iff. now exists (field, op, content).
  - now apply leaks_of_result_method in Hin.
  - now apply detection_inputs_field_names in Hinput.
Qed.

(** ** Dicts *)

Lemma dict_get_set_same {V : Type} (d : Dict.t V) (k : string) (v : V) :
  Dict.get (Dict.set d k v) k = Some v.
Proof.
  induction d as [| [k' v'] d IH]; simpl.
  - now rewrite String.eqb_refl.
  - destruct (String.eqb k' k) eqn:E; simpl; rewrite E; [reflexivity | exact IH].
Qed.

Lemma dict_get_set_other {V : Type} (d : Dict.t V) (k k' : string) (v : V) :
  k' <> k -> Dict.get (Dict.set d k v) k' = Dict.get d k'.
Proof.
  intros Hne. induction d as [| [k0 v0] d IH]; simpl.
  - destruct (String.eqb k k') eqn:E; [| reflexivity].
    apply String.eqb_eq in E. congruence.
  - destruct (String.eqb k0 k) eqn:E; simpl.
    + apply String.eqb_eq in E. subst k0.
      destruct (String.eqb k k') eqn:E'; [| reflexivity].
      apply String.eqb_eq in E'. congruence.
    + now rewrite IH.
Qed.

Lemma dict_set_not_empty {V : Type} (d : Dict.t V) (k : string) (v : V) :
  Dict.set d k v <> [].
Proof.
  destruct d as [| [k' v'] d]; simpl; [discriminate |].
  destruct (String.eqb k' k); discriminate.
Qed.

(** ** The loop over the entries of a capture *)

Lemma for_each_app {A S : Type} (body : S -> A -> M S) (l1 l2 : list A) :
  forall s,
    for_each body (l1 ++ l2) s = bind (for_each body l1 s) (for_each body l2).
Proof.
  induction l1 as [| x l1 IH]; intros s.
  - cbn [app for_each]. unfold ret. rewrite bind_returned.
    now destruct (for_each body l2 s).
  - cbn [app for_each]. destruct (body s x) as [[s' | e] calls]; [| reflexivity].
    rewrite !bind_returned, IH.
    destruct (for_each body l1 s') as [[s'' | e] calls']; cbn [fst snd].
    + rewrite !bind_returned. cbn [fst snd]. now rewrite app_assoc.
    + reflexivity.
Qed.

Section Aggregation.

Variable tldextract_extract : string -> ExtractResult.
Variable leak_detector : detector.

Let step := process_entry tldextract_extract leak_detector.

Lemma entry_url_domain_after (st : loop_state) (entry : har_entry) :
  match request_url entry with
  | Some (String _ _ as entry_url) =>
      if PyStr.startswith entry_url "blob:" then Some "blob-url"
      else Some (extract_domain tldextract_extract entry_url)
  | _ => st_entry_url_domain st
  end
  = domain_after tldextract_extract (st_entry_url_domain st) entry.
Proof.
  unfold domain_after, domain_key.
  destruct (request_url entry) as [[| c rest] |]; try reflexivity.
  now destruct (PyStr.startswith (String c rest) "blob:").
Qed.

Lemma process_entry_quiet (st : loop_state) (entry : har_entry) (calls : list call) :
  check_entry leak_detector (entry_timestamp entry) entry = (Returned [], calls) ->
  step st entry
  = (Returned (Build_loop_state (st_leaks st)
                 (domain_after tldextract_extract (st_entry_url_domain st) entry)),
     calls).
Proof.
  intros Hc. unfold step, process_entry. cbv zeta.
  rewrite Hc, bind_returned, entry_url_domain_after.
  cbn [ret fst snd]. now rewrite app_nil_r.
Qed.

Lemma process_entry_unbound (st : loop_state) (entry : har_entry)
    (all_leaks : list LeakRecord) (calls : list call) :
  check_entry leak_detector (entry_timestamp entry) entry
  = (Returned all_leaks, calls) ->
  all_leaks <> [] ->
  domain_after tldextract_extract (st_entry_url_domain st) entry = None ->
  step st entry = (Raised UnboundLocalError, calls).
Proof.
  intros Hc Hne Hd. unfold step, process_entry. cbv zeta.
  rewrite Hc, bind_returned, entry_url_domain_after, Hd.
  destruct all_leaks as [| r rs]; [contradiction |].
  cbn [raise fst snd]. now rewrite app_nil_r.
Qed.

Lemma process_entry_bound (st : loop_state) (entry : har_entry)
    (all_leaks : list LeakRecord) (calls : list call) (key : string) :
  check_entry leak_detector (entry_timestamp entry) entry
  = (Returned all_leaks, calls) ->
  all_leaks <> [] ->
  domain_after tldextract_extract (st_entry_url_domain st) entry = Some key ->
  step st entry
  = (Returned (Build_loop_state (add_leaks (st_leaks st) key all_leaks) (Some key)),
     calls).
Proof.
  intros Hc Hne Hd. unfold step, process_entry. cbv zeta.
  rewrite Hc, bind_returned, entry_url_domain_after, Hd.
  destruct all_leaks as [| r rs]; [contradiction |].
  cbn [ret fst snd]. now rewrite app_nil_r.
Qed.

Lemma add_leaks_get (leaks : Dict.t (list LeakRecord)) (key : string)
    (all_leaks : list LeakRecord) :
  Dict.get (add_leaks leaks key all_leaks) key
  = Some (Dict.get_default leaks key [] ++ all_leaks).
Proof.
  unfold add_leaks. rewrite dict_get_set_same. f_equal. f_equal.
  unfold Dict.mem, Dict.get_default.
  destruct (Dict.get leaks key) eqn:E; simpl.
  - now rewrite E.
  - now rewrite dict_get_set_same.
Qed.

Lemma add_leaks_get_other (leaks : Dict.t (list LeakRecord)) (key k : string)
    (all_leaks : list LeakRecord) :
  k <> key ->
  Dict.get (add_leaks leaks key all_leaks) k = Dict.get leaks k.
Proof.
  intros Hne. unfold add_leaks. rewrite dict_get_set_other by assumption.
  destruct (negb (Dict.mem leaks key)); [| reflexivity].
  now apply dict_get_set_other.
Qed.

(** One entry either leaves a state whose [entry_url_domain] is the
    one its URL gives, or stops on the unbound variable. *)
Lemma process_entry_cases (st : loop_state) (entry : har_entry) :
  (exists st' calls,
      step st entry = (Returned st', calls) /\
      st_entry_url_domain st'
      = domain_after tldextract_extract (st_entry_url_domain st) entry) \/
  (exists calls, step st entry = (Raised UnboundLocalError, calls)).
Proof.
  pose proof (check_entry_spec leak_detector (entry_timestamp entry) entry) as Hc.
  destruct (flat_map (input_leaks leak_detector (entry_timestamp entry))
              (detection_inputs entry)) as [| r rs] eqn:Hl.
  - left. do 2 eexists. split; [apply process_entry_quiet; exact Hc |]. reflexivity.
  - destruct (domain_after tldextract_extract (st_entry_url_domain st) entry)
      as [key |] eqn:Hd.
    + left. do 2 eexists. split.
      * eapply process_entry_bound; [exact Hc | discriminate | exact Hd].
      * reflexivity.
    + right. eexists.
      eapply process_entry_unbound; [exact Hc | discriminate | exact Hd].
Qed.

Lemma for_each_domain (entries : list har_entry) :
  forall st st' calls,
    for_each step entries st = (Returned st', calls) ->
    st_entry_url_domain st'
    = fold_left (domain_after tldextract_extract) entries (st_entry_url_domain st).
Proof.
  induction entries as [| entry entries IH]; intros st st' calls Hrun.
  - injection Hrun as <- _. reflexivity.
  - cbn [for_each fold_left] in *.
    destruct (process_entry_cases st entry)
      as [[st1 [calls1 [Hstep Hdom]]] | [calls1 Hstep]];
      rewrite Hstep in Hrun.
    + rewrite bind_returned in Hrun. rewrite <- Hdom.
      apply (IH st1 st' (snd (for_each step entries st1))).
      destruct (for_each step entries st1) as [o c]. cbn [fst snd] in *.
      now injection Hrun as -> _.
    + rewrite bind_raised in Hrun. discriminate.
Qed.

Lemma for_each_raises (entries : list har_entry) :
  forall st e calls,
    for_each step entries st = (Raised e, calls) -> e = UnboundLocalError.
Proof.
  induction entries as [| entry entries IH]; intros st e calls Hrun.
  - discriminate.
  - cbn [for_each] in Hrun.
    destruct (process_entry_cases st entry)
      as [[st1 [calls1 [Hstep _]]] | [calls1 Hstep]];
      rewrite Hstep in Hrun.
    + rewrite bind_returned in Hrun.
      destruct (for_each step entries st1) as [o c] eqn:Hrest.
      cbn [fst snd] in Hrun. injection Hrun as -> _.
      now apply (IH st1 e c).
    + rewrite bind_raised in Hrun. now injection Hrun as <- _.
Qed.

Lemma domain_after_no_url (bound : option string) (entry : har_entry) :
  has_url entry = false -> domain_after tldextract_extract bound entry = bound.
Proof.
  unfold has_url, domain_after.
  destruct (request_url entry) as [[| c rest] |]; intros H;
    [reflexivity | discriminate | reflexivity].
Qed.

Lemma domain_after_url (bound : option string) (entry : har_entry) (url : string) :
  request_url entry = Some url -> url <> "" ->
  domain_after tldextract_extract bound entry
  = Some (domain_key tldextract_extract url).
Proof.
  intros Hu Hne. unfold domain_after. rewrite Hu.
  destruct url; [contradiction | reflexivity].
Qed.

Lemma fold_domain_after_no_url (entries : list har_entry) :
  Forall (fun e => has_url e = false) entries ->
  forall bound,
    fold_left (domain_after tldextract_extract) entries bound = bound.
Proof.
  induction 1 as [| entry entries Hentry _ IH]; intros bound; simpl.
  - reflexivity.
  - now rewrite domain_after_no_url, IH.
Qed.

(** C5: an entry with a non-empty request URL whose checks find leaks
    adds them, after those already there, under one key and touches no
    other: the key is ["blob-url"] when the URL starts with [blob:], and
    what [extract_domain] gives for the URL otherwise. *)
Theorem leaks_aggregated_under_domain_key :
  forall (st : loop_state) (entry : har_entry) (url : string)
         (all_leaks : list LeakRecord) (calls : list call),
    request_url entry = Some url ->
    url <> "" ->
    check_entry leak_detector (entry_timestamp entry) entry
    = (Returned all_leaks, calls) ->
    all_leaks <> [] ->
    exists key st',
      key = (if PyStr.startswith url "blob:" then "blob-url"
             else extract_domain tldextract_extract url) /\
      process_entry tldextract_extract leak_detector st entry
      = (Returned st', calls) /\
      Dict.get (st_leaks st') key
      = Some (Dict.get_default (st_leaks st) key [] ++ all_leaks) /\
      (forall k, k <> key -> Dict.get (st_leaks st') k = Dict.get (st_leaks st) k).
Proof.
  intros st entry url all_leaks calls Hu Hne Hc Hleaks.
  exists (domain_key tldextract_extract url). eexists.
  split; [reflexivity |]. split.
  - eapply process_entry_bound; [exact Hc | exact Hleaks |].
    apply (domain_after_url _ _ url); assumption.
  - cbn [st_leaks]. split.
    + apply add_leaks_get.
    + intros k Hk. now apply add_leaks_get_other.
Qed.

(** C6 (amended): take an entry without a request URL (absent or
    empty) whose checks find leaks.  When no entry before it in the
    capture has a URL, the capture is not processed:
    [UnboundLocalError] is raised.  When some entry before it has one,
    and [url] is the URL of the last such entry, the leaks are added
    under the domain key of [url], after those already there, and no
    other key is touched. *)
Theorem url_less_entry_uses_last_bound_domain :
  forall (pre : list har_entry) (entry : har_entry) (post : list har_entry)
         (site : string) (all_leaks : list LeakRecord) (calls : list call),
    has_url entry = false ->
    check_entry leak_detector (entry_timestamp entry) entry
    = (Returned all_leaks, calls) ->
    all_leaks <> [] ->
    (Forall (fun e => has_url e = false) pre ->
     fst (process_har_and_check_for_leaks tldextract_extract
            (pre ++ entry :: post) site leak_detector)
     = Raised UnboundLocalError) /\
    (forall before url_entry between url st calls',
        pre = before ++ url_entry :: between ->
        request_url url_entry = Some url ->
        url <> "" ->
        Forall (fun e => has_url e = false) between ->
        for_each (process_entry tldextract_extract leak_detector) pre initial_state
        = (Returned st, calls') ->
        exists st',
          process_entry tldextract_extract leak_detector st entry
          = (Returned st', calls) /\
          Dict.get (st_leaks st') (domain_key tldextract_extract url)
          = Some (Dict.get_default (st_leaks st)
                    (domain_key tldextract_extract url) []
                  ++ all_leaks) /\
          (forall k, k <> domain_key tldextract_extract url ->
                     Dict.get (st_leaks st') k = Dict.get (st_leaks st) k)).
Proof.
  intros pre entry post site all_leaks calls Hno Hc Hleaks. split.
  - intros Hpre. unfold process_har_and_check_for_leaks. cbv zeta.
    fold initial_state. fold step. rewrite for_each_app.
    destruct (for_each step pre initial_state) as [[st | e] calls1] eqn:Hrun.
    + rewrite bind_returned. cbn [for_each].
      rewrite (process_entry_unbound st entry all_leaks calls Hc Hleaks).
      * reflexivity.
      * rewrite domain_after_no_url by assumption.
        rewrite (for_each_domain pre initial_state st calls1 Hrun).
        now apply fold_domain_after_no_url.
    + apply for_each_raises in Hrun. subst e. reflexivity.
  - intros before url_entry between url st calls' Hpre Hu Hne Hbetween Hrun.
    assert (Hd : domain_after tldextract_extract (st_entry_url_domain st) entry
                 = Some (domain_key tldextract_extract url)).
    { rewrite domain_after_no_url by assumption.
      rewrite (for_each_domain pre initial_state st calls' Hrun), Hpre.
      rewrite fold_left_app. cbn [fold_left].
      rewrite fold_domain_after_no_url by assumption.
      now apply domain_after_url. }
    eexists. split.
    + eapply process_entry_bound; [exact Hc | exact Hleaks | exact Hd].
    + cbn [st_leaks]. split.
      * apply add_leaks_get.
      * intros k Hk. now apply add_leaks_get_other.
Qed.

Lemma dict_set_set {V : Type} (d : Dict.t V) (k : string) (v w : V) :
  Dict.set (Dict.set d k v) k w = Dict.set d k w.
Proof.
  induction d as [| [k' v'] d IH]; simpl.
  - now rewrite String.eqb_refl.
  - destruct (String.eqb k' k) eqn:E; simpl; rewrite E; [reflexivity |].
    now rewrite IH.
Qed.

Lemma dict_set_groups (leaks : Dict.t (list LeakRecord)) (key : string)
    (records : list LeakRecord) :
  groups_nonempty leaks -> records <> [] ->
  groups_nonempty (Dict.set leaks key records).
Proof.
  unfold groups_nonempty. intros Hall Hne.
  induction leaks as [| [k v] leaks IH]; simpl.
  - constructor; [exact Hne | constructor].
  - inversion Hall as [| ? ? Hv Hrest]; subst.
    destruct (String.eqb k key); constructor; auto.
Qed.

Lemma add_leaks_groups (leaks : Dict.t (list LeakRecord)) (key : string)
    (all_leaks : list LeakRecord) :
  groups_nonempty leaks -> all_leaks <> [] ->
  groups_nonempty (add_leaks leaks key all_leaks).
Proof.
  intros Hall Hne. unfold add_leaks.
  assert (Hrec : forall l : list LeakRecord, l ++ all_leaks <> []).
  { intros l H. apply app_eq_nil in H. tauto. }
  destruct (negb (Dict.mem leaks key)).
  - rewrite dict_set_set. now apply dict_set_groups.
  - now apply dict_set_groups.
Qed.

Lemma add_leaks_not_empty (leaks : Dict.t (list LeakRecord)) (key : string)
    (all_leaks : list LeakRecord) :
  add_leaks leaks key all_leaks <> [].
Proof. unfold add_leaks. apply dict_set_not_empty. Qed.

(** What one entry does to the dict of leaks, in the three cases. *)
Lemma process_entry_leaks (st st' : loop_state) (entry : har_entry)
    (calls : list call) :
  step st entry = (Returned st', calls) ->
  (check_entry leak_detector (entry_timestamp entry) entry = (Returned [], calls)
   /\ st_leaks st' = st_leaks st) \/
  (exists x xs key,
      check_entry leak_detector (entry_timestamp entry) entry
      = (Returned (x :: xs), calls) /\
      st_leaks st' = add_leaks (st_leaks st) key (x :: xs)).
Proof.
  intros Hstep.
  pose proof (check_entry_spec leak_detector (entry_timestamp entry) entry) as Hc.
  destruct (flat_map (input_leaks leak_detector (entry_timestamp entry))
              (detection_inputs entry)) as [| x xs] eqn:Hl.
  - left. rewrite (process_entry_quiet st entry _ Hc) in Hstep.
    injection Hstep as <- <-. split; [exact Hc | reflexivity].
  - destruct (domain_after tldextract_extract (st_entry_url_domain st) entry)
      as [key |] eqn:Hd.
    + right. rewrite (process_entry_bound st entry _ _ key Hc) in Hstep;
        [| discriminate | exact Hd].
      injection Hstep as <- <-. exists x, xs, key. split; [exact Hc | reflexivity].
    + rewrite (process_entry_unbound st entry _ _ Hc) in Hstep;
        [discriminate | discriminate | exact Hd].
Qed.

Lemma loop_leaks_origin (entries : list har_entry) :
  forall st st' calls,
    for_each step entries st = (Returned st', calls) ->
    st_leaks st' <> [] ->
    st_leaks st <> [] \/
    exists entry x xs calls',
      In entry entries /\
      check_entry leak_detector (entry_timestamp entry) entry
      = (Returned (x :: xs), calls').
Proof.
  induction entries as [| entry entries IH]; intros st st' calls Hrun Hne.
  - injection Hrun as <- _. now left.
  - cbn [for_each] in Hrun. apply bind_returned_inv in Hrun.
    destruct Hrun as [st1 [calls1 [calls2 [Hstep [Hrest _]]]]].
    destruct (process_entry_leaks st st1 entry calls1 Hstep)
      as [[_ Hsame] | [x [xs [key [Hc _]]]]].
    + destruct (IH st1 st' calls2 Hrest Hne)
        as [Hst1 | [e [x [xs [c [Hin Hc]]]]]].
      * left. now rewrite <- Hsame.
      * right. exists e, x, xs, c. split; [now right | exact Hc].
    + right. exists entry, x, xs, calls1. split; [now left | exact Hc].
Qed.

Lemma loop_groups_nonempty (entries : list har_entry) :
  forall st st' calls,
    for_each step entries st = (Returned st', calls) ->
    groups_nonempty (st_leaks st) ->
    groups_nonempty (st_leaks st').
Proof.
  induction entries as [| entry entries IH]; intros st st' calls Hrun Hall.
  - now injection Hrun as <- _.
  - cbn [for_each] in Hrun. apply bind_returned_inv in Hrun.
    destruct Hrun as [st1 [calls1 [calls2 [Hstep [Hrest _]]]]].
    apply (IH st1 st' calls2 Hrest).
    destruct (process_entry_leaks st st1 entry calls1 Hstep)
      as [[_ ->] | [x [xs [key [_ ->]]]]].
    + exact Hall.
    + apply add_leaks_groups; [exact Hall | discriminate].
Qed.

(** A capture whose dict of leaks is not empty has an entry whose
    checks found a leak, and none of its groups is empty. *)
Lemma process_har_leaks_origin (entries : list har_entry) (site : string)
    (leaks : Dict.t (list LeakRecord)) (calls : list call) :
  process_har_and_check_for_leaks tldextract_extract entries site leak_detector
  = (Returned leaks, calls) ->
  groups_nonempty leaks /\
  (leaks <> [] ->
   exists entry x xs calls',
     In entry entries /\
     check_entry leak_detector (entry_timestamp entry) entry
     = (Returned (x :: xs), calls')).
Proof.
  unfold process_har_and_check_for_leaks. cbv zeta. intros Hrun.
  apply bind_returned_inv in Hrun.
  destruct Hrun as [st [calls1 [calls2 [Hloop [Hret _]]]]].
  injection Hret as <- _. split.
  - apply (loop_groups_nonempty entries _ st calls1 Hloop). constructor.
  - intros Hne.
    destruct (loop_leaks_origin entries _ st calls1 Hloop Hne) as [H | H];
      [now contradiction H | exact H].
Qed.

End Aggregation.

(** ** The pipeline over all sites *)

Lemma bind_assoc {A B C : Type} (m : M A) (f : A -> M B) (g : B -> M C) :
  bind (bind m f) g = bind m (fun x => bind (f x) g).
Proof.
  destruct m as [[a | e] calls]; [| reflexivity].
  unfold bind at 2 3. destruct (f a) as [[b | e] calls']; cbn [bind].
  - destruct (g b) as [r calls'']. now rewrite app_assoc.
  - reflexivity.
Qed.

Section Sites.

Variable tldextract_extract : string -> ExtractResult.
Variable LeakDetector_new : list pyval -> nat -> nat -> detector.
Variable site_country_map : Dict.t string.
Variable general : Dict.t pyval.
Variable profiles : Dict.t (Dict.t pyval).

Let run := site_run tldextract_extract LeakDetector_new site_country_map
             general profiles.
Let site_step := process_site tldextract_extract LeakDetector_new
                   site_country_map general profiles.

Lemma process_site_some (final_results : list site_entry) (site : string)
    (entries : list har_entry) :
  site_step final_results (site, Some entries)
  = bind (run site entries)
      (fun site_leaks => ret (final_results ++ site_result site site_leaks)).
Proof.
  unfold site_step, process_site, run, site_run, site_profile. cbv zeta.
  destruct (get_search_strings general
              (Dict.get_default profiles
                 (Dict.get_default site_country_map site "dutch") []) site)
    as [search_strings | e]; [| reflexivity].
  unfold lift, bind, ret. cbn [app].
  destruct (process_har_and_check_for_leaks tldextract_extract entries site
              (initialize_leak_detector LeakDetector_new search_strings))
    as [[site_leaks | e] calls]; [| reflexivity].
  destruct site_leaks as [| g gs]; cbn [site_result]; now rewrite !app_nil_r.
Qed.

Lemma format_fold (site_leaks : Dict.t (list LeakRecord)) :
  forall acc : list leak_entry,
    fold_left
      (fun acc (item : string * list LeakRecord) =>
         let (domain, leak_list) := item in
         acc ++ [Build_leak_entry domain leak_list])
      site_leaks acc
    = acc ++ map (fun group => Build_leak_entry (fst group) (snd group)) site_leaks.
Proof.
  induction site_leaks as [| [d l] site_leaks IH]; intros acc; simpl.
  - now rewrite app_nil_r.
  - rewrite IH, <- app_assoc. reflexivity.
Qed.

Lemma format_site_results_leaks (site : string) (site_leaks : Dict.t (list LeakRecord)) :
  leaks (format_site_results site site_leaks)
  = map (fun group => Build_leak_entry (fst group) (snd group)) site_leaks.
Proof.
  unfold format_site_results, Dict.items. cbn [leaks]. now rewrite format_fold.
Qed.

(** The loop over the names of the base folder, when it returns: every
    capture was processed, and [final_results] grew by what each name
    adds, in order. *)
Lemma sites_loop (listing : list (string * option (list har_entry))) :
  forall final_results final_results' calls,
    for_each site_step listing final_results = (Returned final_results', calls) ->
    final_results'
    = final_results
      ++ flat_map (site_results tldextract_extract LeakDetector_new
                     site_country_map general profiles) listing /\
    (forall site entries,
        In (site, Some entries) listing ->
        exists site_leaks calls', run site entries = (Returned site_leaks, calls')).
Proof.
  induction listing as [| [site har] listing IH];
    intros final_results final_results' calls Hrun.
  - injection Hrun as <- _. split; [now rewrite app_nil_r | intros ? ? []].
  - cbn [for_each] in Hrun. apply bind_returned_inv in Hrun.
    destruct Hrun as [final1 [calls1 [calls2 [Hstep [Hrest _]]]]].
    destruct (IH final1 final_results' calls2 Hrest) as [Hfinal Hall].
    destruct har as [entries |].
    + rewrite process_site_some in Hstep. apply bind_returned_inv in Hstep.
      destruct Hstep as [site_leaks [c1 [c2 [Hsite [Hret _]]]]].
      injection Hret as <- _. split.
      * rewrite Hfinal. cbn [flat_map site_results]. fold run.
        rewrite Hsite. cbn [fst]. now rewrite app_assoc.
      * intros site' entries' [Heq | Hin]; [| now apply Hall].
        injection Heq as <- <-. now exists site_leaks, c1.
    + injection Hstep as <- _. split.
      * exact Hfinal.
      * intros site' entries' [Heq | Hin]; [discriminate | now apply Hall].
Qed.

(** C4: when the pipeline returns, a site is in the list it hands
    over only if the site is a name of the base folder with a capture,
    its search strings were generated, its capture gave a dict of leaks
    that is not empty and has no empty group, and some entry of the
    capture had a check that found a leak; the list handed over is never
    empty; and no file is written exactly when every capture of the base
    folder gives an empty dict of leaks. *)
Theorem only_leaking_sites_are_reported :
  forall (listing : list (string * option (list har_entry)))
         (written : option (list site_entry)) (calls : list call),
    process_all_hars_and_check_for_leaks tldextract_extract LeakDetector_new
      listing site_country_map general profiles
    = (Returned written, calls) ->
    (forall final_results r,
        written = Some final_results ->
        In r final_results ->
        exists entries search_strings site_leaks calls',
          In (website r, Some entries) listing /\
          get_search_strings general
            (site_profile site_country_map profiles (website r)) (website r)
          = Returned search_strings /\
          process_har_and_check_for_leaks tldextract_extract entries (website r)
            (initialize_leak_detector LeakDetector_new search_strings)
          = (Returned site_leaks, calls') /\
          site_leaks <> [] /\
          r = format_site_results (website r) site_leaks /\
          Forall (fun group => data_leaked group <> []) (leaks r) /\
          exists entry x xs calls'',
            In entry entries /\
            check_entry (initialize_leak_detector LeakDetector_new search_strings)
              (entry_timestamp entry) entry
            = (Returned (x :: xs), calls'')) /\
    (forall final_results, written = Some final_results -> final_results <> []) /\
    (written = None <->
     forall site entries,
       In (site, Some entries) listing ->
       fst (site_run tldextract_extract LeakDetector_new site_country_map
              general profiles site entries)
       = Returned []).
Proof.
  intros listing written calls Hrun.
  unfold process_all_hars_and_check_for_leaks in Hrun. cbv zeta in Hrun.
  apply bind_returned_inv in Hrun.
  destruct Hrun as [final [calls1 [calls2 [Hloop [Hret _]]]]].
  fold site_step in Hloop. apply sites_loop in Hloop.
  destruct Hloop as [Hfinal Hall]. cbn [app] in Hfinal.
  assert (Hwritten : written = match final with [] => None | _ :: _ => Some final end).
  { destruct final; now injection Hret as <- _. }
  clear Hret. split; [| split].
  - intros final_results r Hw Hin.
    assert (Hr : In r final).
    { rewrite Hwritten in Hw. destruct final; [discriminate |].
      now injection Hw as <-. }
    rewrite Hfinal in Hr. apply in_flat_map in Hr.
    destruct Hr as [[site har] [Hitem Hr]].
    destruct har as [entries |]; [| contradiction].
    destruct (Hall site entries Hitem) as [site_leaks [c Hsite]].
    cbn [site_results] in Hr. fold run in Hr. rewrite Hsite in Hr. cbn [fst] in Hr.
    destruct site_leaks as [| g gs]; [contradiction |].
    destruct Hr as [<- | []]. cbn [website format_site_results].
    unfold run, site_run in Hsite. apply bind_returned_inv in Hsite.
    destruct Hsite as [search_strings [c1 [c2 [Hss [Hhar _]]]]].
    unfold lift in Hss. injection Hss as Hss _.
    destruct (process_har_leaks_origin tldextract_extract _ entries site
                (g :: gs) c2 Hhar) as [Hgroups Hentry].
    exists entries, search_strings, (g :: gs), c2.
    split; [exact Hitem |]. split; [exact Hss |]. split; [exact Hhar |].
    split; [discriminate |]. split; [reflexivity |]. split.
    + fold (format_site_results site (g :: gs)).
      rewrite format_site_results_leaks. apply Forall_map.
      exact Hgroups.
    + apply Hentry. discriminate.
  - intros final_results Hw. rewrite Hwritten in Hw.
    destruct final; [discriminate |]. injection Hw as <-. discriminate.
  - split.
    + intros Hnone site entries Hitem.
      destruct (Hall site entries Hitem) as [site_leaks [c Hsite]].
      fold run. rewrite Hsite. cbn [fst].
      destruct site_leaks as [| g gs]; [reflexivity |].
      rewrite Hwritten in Hnone. destruct final as [| r rs]; [| discriminate].
      assert (Hin : In (format_site_results site (g :: gs))
                      (flat_map (site_results tldextract_extract LeakDetector_new
                                   site_country_map general profiles) listing)).
      { apply in_flat_map. exists (site, Some entries). split; [exact Hitem |].
        cbn [site_results]. fold run. rewrite Hsite. now left. }
      rewrite <- Hfinal in Hin. contradiction.
    + intros Hquiet. rewrite Hwritten.
      destruct final as [| r rs]; [reflexivity |].
      assert (Hr : In r (r :: rs)) by now left.
      rewrite Hfinal in Hr. apply in_flat_map in Hr.
      destruct Hr as [[site har] [Hitem Hr]].
      destruct har as [entries |]; [| contradiction].
      cbn [site_results] in Hr. rewrite (Hquiet site entries Hitem) in Hr.
      contradiction.
Qed.

End Sites.

(** ** Runs on the sample data *)

Lemma leaks_aggregated_under_domain_key_witness :
  exists key st',
    key = "blob-url" /\
    process_entry sample_extract sample_detector initial_state entry_blob
    = (Returned st',
       [(check_url, "blob:https://www.example.com/1f0c");
        (check_post_data, "name=Ann+Lee")]) /\
    Dict.get (st_leaks st') key = Some ([] ++ [leak_in_body]) /\
    (forall k, k <> key -> Dict.get (st_leaks st') k = None).
Proof.
  apply (leaks_aggregated_under_domain_key sample_extract sample_detector
           initial_state entry_blob "blob:https://www.example.com/1f0c"
           [leak_in_body]
           [(check_url, "blob:https://www.example.com/1f0c");
            (check_post_data, "name=Ann+Lee")]).
  - reflexivity.
  - discriminate.
  - reflexivity.
  - discriminate.
Defined.

Example tracker_leak_under_registrable_domain :
  process_har_and_check_for_leaks sample_extract
    [entry_blob; entry_tracker; entry_blob] "shop.example" sample_detector
  = (Returned [("blob-url", [leak_in_body; leak_in_body]);
               ("tracker.net", [leak_in_url])],
     [(check_url, "blob:https://www.example.com/1f0c");
      (check_post_data, "name=Ann+Lee");
      (check_url, "https://ads.tracker.net/p?u=QW5uIExlZQ");
      (check_referrer_str, "https://www.example.com/");
      (check_url, "blob:https://www.example.com/1f0c");
      (check_post_data, "name=Ann+Lee")]).
Proof. reflexivity. Qed.

Lemma url_less_entry_uses_last_bound_domain_witness :
  fst (process_har_and_check_for_leaks sample_extract
         ([blank_entry] ++ entry_no_url :: [entry_tracker]) "shop.example"
         sample_detector)
  = Raised UnboundLocalError /\
  exists st',
    process_entry sample_extract sample_detector
      (Build_loop_state [("tracker.net", [leak_in_url])] (Some "tracker.net"))
      entry_no_url
    = (Returned st',
       [(check_cookie_str, "uid=Lee"); (check_cookie_str, "sid=None")]) /\
    Dict.get (st_leaks st') "tracker.net" = Some ([leak_in_url] ++ [leak_in_cookie]) /\
    (forall k,
        k <> "tracker.net" ->
        Dict.get (st_leaks st') k = Dict.get [("tracker.net", [leak_in_url])] k).
Proof.
  split.
  - apply (url_less_entry_uses_last_bound_domain sample_extract sample_detector
             [blank_entry] entry_no_url [entry_tracker] "shop.example"
             [leak_in_cookie]
             [(check_cookie_str, "uid=Lee"); (check_cookie_str, "sid=None")]).
    + reflexivity.
    + reflexivity.
    + discriminate.
    + repeat constructor.
  - apply (proj2 (url_less_entry_uses_last_bound_domain sample_extract
                    sample_detector [entry_tracker; blank_entry] entry_no_url []
                    "shop.example" [leak_in_cookie]
                    [(check_cookie_str, "uid=Lee"); (check_cookie_str, "sid=None")]
                    eq_refl eq_refl ltac:(discriminate))
             [] entry_tracker [blank_entry] "https://ads.tracker.net/p?u=QW5uIExlZQ"
             (Build_loop_state [("tracker.net", [leak_in_url])] (Some "tracker.net"))
             [(check_url, "https://ads.tracker.net/p?u=QW5uIExlZQ");
              (check_referrer_str, "https://www.example.com/")]).
    + reflexivity.
    + reflexivity.
    + discriminate.
    + repeat constructor.
    + reflexivity.
Defined.

(** C6 as stated fails, whichever record "the first such record" is.
    In the capture [entry_quiet; entry_no_url] the second entry is the
    first one without a URL whose checks find a leak, and the capture is
    processed: the leak goes under the domain of the first entry.  In the
    capture [blank_entry; entry_no_url] the second entry is not the first
    one processed and has no entry with a URL before it, and the capture
    is not processed. *)
Lemma first_url_less_leak_need_not_fail :
  (has_url entry_quiet = true /\
   has_url entry_no_url = false /\
   check_entry sample_detector (entry_timestamp entry_quiet) entry_quiet
   = (Returned [], [(check_url, "https://www.example.com/")]) /\
   check_entry sample_detector (entry_timestamp entry_no_url) entry_no_url
   = (Returned [leak_in_cookie],
      [(check_cookie_str, "uid=Lee"); (check_cookie_str, "sid=None")]) /\
   process_har_and_check_for_leaks sample_extract [entry_quiet; entry_no_url]
     "shop.example" sample_detector
   = (Returned [("example.com", [leak_in_cookie])],
      [(check_url, "https://www.example.com/");
       (check_cookie_str, "uid=Lee"); (check_cookie_str, "sid=None")])) /\
  (has_url blank_entry = false /\
   check_entry sample_detector (entry_timestamp blank_entry) blank_entry
   = (Returned [], []) /\
   process_har_and_check_for_leaks sample_extract [blank_entry; entry_no_url]
     "shop.example" sample_detector
   = (Raised UnboundLocalError,
      [(check_cookie_str, "uid=Lee"); (check_cookie_str, "sid=None")])).
Proof. repeat split. Qed.

Lemma only_leaking_sites_are_reported_witness :
  (forall final_results,
      Some [sample_report] = Some final_results -> final_results <> []) /\
  (Some [sample_report] = None <->
   forall site entries,
     In (site, Some entries) sample_listing ->
     fst (site_run sample_extract sample_LeakDetector_new sample_site_country_map
            ex_general sample_profiles site entries)
     = Returned []).
Proof.
  apply (only_leaking_sites_are_reported sample_extract sample_LeakDetector_new
           sample_site_country_map ex_general sample_profiles sample_listing
           (Some [sample_report])
           [(check_url, "https://ads.tracker.net/p?u=QW5uIExlZQ");
            (check_referrer_str, "https://www.example.com/");
            (check_cookie_str, "uid=Lee"); (check_cookie_str, "sid=None");
            (check_url, "https://www.example.com/")]).
  reflexivity.
Defined.

Example no_leak_no_file :
  process_all_hars_and_check_for_leaks sample_extract sample_LeakDetector_new
    [("notes.txt", None); ("quiet.example", Some [entry_quiet])]
    sample_site_country_map ex_general sample_profiles
  = (Returned None, [(check_url, "https://www.example.com/")]).
Proof. reflexivity. Qed.

(** The scenario of an unknown country: general data with a first and a
    last name, an empty profile table, the site ["example.com"]. *)
Example unknown_country_run :
  process_all_hars_and_check_for_leaks sample_extract sample_LeakDetector_new
    [("example.com", Some [entry_blob])] []
    [("first_name", PStr "Ann"); ("last_name", PStr "Lee")] []
  = (Raised TypeError, []).
Proof. reflexivity. Qed.

Example cookies_run :
  check_cookies sample_detector "2024-05-01T10:00:05Z" (cookies entry_no_url) []
  = (Returned [leak_in_cookie],
     [(check_cookie_str, "uid=Lee"); (check_cookie_str, "sid=None")]).
Proof. reflexivity. Qed.

(** ** More on the search strings *)

Lemma pyval_eqb_eq (v w : pyval) : pyval_eqb v w = true <-> v = w.
Proof.
  destruct v, w; simpl; split; intros H; try discriminate; try reflexivity.
  - apply Bool.eqb_prop in H. now subst.
  - injection H as ->. apply Bool.eqb_reflx.
  - apply Z.eqb_eq in H. now subst.
  - injection H as ->. apply Z.eqb_refl.
  - apply String.eqb_eq in H. now subst.
  - injection H as ->. apply String.eqb_refl.
Qed.


(** What [get_search_strings] returns, exactly. *)
Lemma get_search_strings_returned (general profile : Dict.t pyval) (site : string)
    (l : list pyval) :
  get_search_strings general profile site = Returned l <->
  exists international card zip,
    Dict.get_default profile "international_format" PNone = PStr international /\
    Dict.get_default general "credit_card_number" (PStr "") = PStr card /\
    zip_strings profile zip /\
    l = special_strings general profile site international card zip
        ++ fields_outside general_exclusions general
        ++ fields_outside profile_exclusions profile.
Proof.
  unfold get_search_strings, zip_strings. cbv zeta. split.
  - intros H.
    destruct (Dict.get_default profile "international_format" PNone)
      as [| | | international]; try discriminate.
    cbn [py_slice_from obind] in H.
    destruct (pyval_eqb (Dict.get_default profile "country_code" PNone) (PStr "+31"))
      eqn:Hcc.
    + apply pyval_eqb_eq in Hcc.
      destruct (Dict.get_default profile "zip_code" (PStr "")) as [| | | z];
        try discriminate.
      cbn [py_slice_to py_slice_from obind format_value] in H.
      destruct (Dict.get_default general "credit_card_number" (PStr ""))
        as [| | | card]; try discriminate.
      cbn [py_replace_spaces obind] in H. rewrite !append_fields_app in H.
      injection H as <-.
      exists international, card,
        [PStr (fstring [PyStr.slice_to 4 z; " "; PyStr.slice_from 4 z])].
      split; [reflexivity |]. split; [reflexivity |]. split.
      * left. split; [exact Hcc |]. now exists z.
      * unfold special_strings. rewrite <- !app_assoc. reflexivity.
    + cbn [obind] in H.
      destruct (Dict.get_default general "credit_card_number" (PStr ""))
        as [| | | card]; try discriminate.
      cbn [py_replace_spaces obind] in H. rewrite !append_fields_app in H.
      injection H as <-.
      exists international, card, [].
      split; [reflexivity |]. split; [reflexivity |]. split.
      * right. split; [| reflexivity]. intros Heq. apply pyval_eqb_eq in Heq.
        congruence.
      * unfold special_strings. rewrite <- !app_assoc. reflexivity.
  - intros [international [card [zip [Hint [Hcard [Hzip ->]]]]]].
    rewrite Hint, Hcard. cbn [py_slice_from obind].
    destruct Hzip as [[Hcc [z [Hz ->]]] | [Hcc ->]].
    + rewrite Hcc, Hz. cbn [pyval_eqb]. rewrite String.eqb_refl.
      cbn [py_slice_to py_slice_from obind format_value py_replace_spaces].
      rewrite !append_fields_app. unfold special_strings.
      rewrite <- !app_assoc. reflexivity.
    + destruct (pyval_eqb (Dict.get_default profile "country_code" PNone) (PStr "+31"))
        eqn:E; [apply pyval_eqb_eq in E; contradiction |].
      cbn [obind py_replace_spaces]. rewrite !append_fields_app.
      unfold special_strings. rewrite <- !app_assoc. reflexivity.
Qed.

Lemma remove_spaces_chars (s : string) :
  chars (PyStr.remove_spaces s)
  = filter (fun c => negb (Ascii.eqb c " "%char)) (chars s).
Proof.
  unfold chars. induction s as [| c s IH]; simpl; [reflexivity |].
  destruct (Ascii.eqb c " "%char); simpl; now rewrite IH.
Qed.




Lemma dict_get_in {V : Type} (d : Dict.t V) (k : string) (v : V) :
  Dict.get d k = Some v -> In (k, v) d.
Proof.
  induction d as [| [k' v'] d IH]; simpl; [discriminate |].
  destruct (String.eqb k' k) eqn:E.
  - apply String.eqb_eq in E. intros H. injection H as ->. subst. now left.
  - intros H. right. now apply IH.
Qed.





(** X3: when [get_search_strings] returns, the card number is a string
    and the collection holds it with its spaces deleted: the variant has
    no space and its characters are the other characters of the card
    number, in order. *)
Theorem card_number_variant_has_no_space :
  forall (general profile : Dict.t pyval) (site : string) (l : list pyval),
    get_search_strings general profile site = Returned l ->
    exists card,
      Dict.get_default general "credit_card_number" (PStr "") = PStr card /\
      In (PStr (PyStr.remove_spaces card)) l /\
      ~ In " "%char (chars (PyStr.remove_spaces card)) /\
      chars (PyStr.remove_spaces card)
      = filter (fun c => negb (Ascii.eqb c " "%char)) (chars card).
Proof.
  intros general profile site l Hl. apply get_search_strings_returned in Hl.
  destruct Hl as [international [card [zip [_ [Hcard [_ ->]]]]]].
  exists card. split; [exact Hcard |]. split; [| split].
  - apply in_or_app. left. unfold special_strings.
    apply in_or_app. right. apply in_or_app. right. simpl. tauto.
  - rewrite remove_spaces_chars. intros Hin. apply filter_In in Hin.
    destruct Hin as [_ Hin]. now rewrite Ascii.eqb_refl in Hin.
  - apply remove_spaces_chars.
Qed.

Lemma card_number_variant_has_no_space_witness :
  exists card,
    Dict.get_default ex_general "credit_card_number" (PStr "") = PStr card /\
    In (PStr (PyStr.remove_spaces card)) ex_strings /\
    ~ In " "%char (chars (PyStr.remove_spaces card)) /\
    chars (PyStr.remove_spaces card)
    = filter (fun c => negb (Ascii.eqb c " "%char)) (chars card).
Proof.
  apply (card_number_variant_has_no_space ex_general ex_profile "example.com").
  reflexivity.
Defined.



Lemma lstrip_head (s : string) (c : ascii) (r : string) :
  PyStr.lstrip s = String c r -> PyStr.is_space c = false.
Proof.
  induction s as [| a s IH]; simpl; [discriminate |].
  destruct (PyStr.is_space a) eqn:E; [exact IH |].
  intros H. injection H as <- _. exact E.
Qed.

Lemma rstrip_head (s : string) (c : ascii) (r : string) :
  PyStr.rstrip s = String c r -> exists r', s = String c r'.
Proof.
  destruct s as [| a s]; simpl; [discriminate |].
  destruct (PyStr.rstrip s); [destruct (PyStr.is_space a) |];
    intros H; try discriminate; injection H as <- _; now eexists.
Qed.

Lemma rstrip_last (s : string) :
  forall (pre : string) (c : ascii),
    PyStr.rstrip s = (pre ++ String c "")%string -> PyStr.is_space c = false.
Proof.
  induction s as [| a s IH]; intros pre c; simpl.
  - destruct pre; discriminate.
  - destruct (PyStr.rstrip s) as [| x y] eqn:E.
    + destruct (PyStr.is_space a) eqn:Ha.
      * destruct pre; discriminate.
      * destruct pre as [| p pre]; simpl; intros H.
        -- injection H as <-. exact Ha.
        -- injection H as _ H. destruct pre; discriminate.
    + destruct pre as [| p pre]; simpl; intros H.
      * discriminate.
      * injection H as _ H. now apply (IH pre c).
Qed.





(** X7: when [get_search_strings] returns, the third search string is
    the full name ["{first_name} {last_name}"] stripped: it neither
    starts nor ends with a whitespace character, and it is the empty
    string when the general record has neither name. *)
Theorem full_name_is_stripped :
  forall (general profile : Dict.t pyval) (site : string) (l : list pyval),
    get_search_strings general profile site = Returned l ->
    exists full_name,
      nth_error l 2 = Some (PStr full_name) /\
      full_name
      = PyStr.strip
          (format_value (Dict.get_default general "first_name" (PStr ""))
           ++ " "
           ++ format_value (Dict.get_default general "last_name" (PStr "")))%string /\
      (forall c rest, full_name = String c rest -> PyStr.is_space c = false) /\
      (forall front c,
          full_name = (front ++ String c "")%string -> PyStr.is_space c = false) /\
      (Dict.get general "first_name" = None ->
       Dict.get general "last_name" = None -> full_name = "").
Proof.
  intros general profile site l Hl. apply get_search_strings_returned in Hl.
  destruct Hl as [international [card [zip [_ [_ [_ ->]]]]]].
  eexists. split; [reflexivity |]. split; [reflexivity |]. split; [| split].
  - intros c rest H. unfold PyStr.strip in H.
    apply rstrip_head in H. destruct H as [r' H]. now apply lstrip_head in H.
  - intros front c H. unfold PyStr.strip in H. now apply rstrip_last in H.
  - intros Hf Hl. unfold Dict.get_default. now rewrite Hf, Hl.
Qed.

Lemma full_name_is_stripped_witness :
  exists full_name,
    nth_error ex_strings 2 = Some (PStr full_name) /\
    full_name
    = PyStr.strip
        (format_value (Dict.get_default ex_general "first_name" (PStr ""))
         ++ " "
         ++ format_value (Dict.get_default ex_general "last_name" (PStr "")))%string /\
    (forall c rest, full_name = String c rest -> PyStr.is_space c = false) /\
    (forall front c,
        full_name = (front ++ String c "")%string -> PyStr.is_space c = false) /\
    (Dict.get ex_general "first_name" = None ->
     Dict.get ex_general "last_name" = None -> full_name = "").
Proof.
  apply (full_name_is_stripped ex_general ex_profile "example.com").
  reflexivity.
Defined.

(** ** More on the headers and on [check_field] *)

(** X8: [extract_header_value] gives the value of the first header
    whose name is the wanted one, letter case apart, whatever headers
    follow it. *)
Theorem extract_header_value_first_match :
  forall (front : list header) (h : header) (back : list header) (name : string),
    Forall (fun x => header_matches name x = false) front ->
    header_matches name h = true ->
    extract_header_value (front ++ h :: back) name = Some (header_value h).
Proof.
  intros front h back name Hfront Hh.
  induction Hfront as [| x front Hx _ IH]; simpl.
  - unfold header_matches in Hh. now rewrite Hh.
  - unfold header_matches in Hx. now rewrite Hx.
Qed.

Lemma extract_header_value_first_match_witness :
  extract_header_value
    ([Build_header "Content-Type" "text/html"]
     ++ Build_header "SET-COOKIE" "uid=Lee"
     :: [Build_header "Set-Cookie" "sid=1"]) "Set-Cookie"
  = Some "uid=Lee".
Proof.
  apply (extract_header_value_first_match
           [Build_header "Content-Type" "text/html"]
           (Build_header "SET-COOKIE" "uid=Lee")
           [Build_header "Set-Cookie" "sid=1"] "Set-Cookie").
  - repeat constructor.
  - reflexivity.
Defined.

(** X9: [extract_header_value] gives [None] exactly when no header has
    the wanted name, letter case apart; and two names that differ by
    letter case only give the same result. *)
Theorem extract_header_value_none_iff :
  forall (headers : list header) (name : string),
    (extract_header_value headers name = None <->
     Forall (fun x => header_matches name x = false) headers) /\
    (forall name',
        PyStr.lower name = PyStr.lower name' ->
        extract_header_value headers name = extract_header_value headers name').
Proof.
  intros headers name. split.
  - induction headers as [| h headers IH]; simpl.
    + split; [constructor | reflexivity].
    + fold (header_matches name h).
      destruct (header_matches name h) eqn:E.
      * split; [discriminate |]. intros H. inversion H. congruence.
      * rewrite IH. split; [now constructor |]. intros H. now inversion H.
  - intros name' Hlow. induction headers as [| h headers IH]; simpl.
    + reflexivity.
    + now rewrite Hlow, IH.
Qed.

Lemma extract_header_value_none_iff_witness :
  extract_header_value [Build_header "referer" "https://www.example.com/"] "Referer"
  = extract_header_value [Build_header "referer" "https://www.example.com/"] "REFERER".
Proof.
  apply (proj2 (extract_header_value_none_iff
                  [Build_header "referer" "https://www.example.com/"] "Referer")
           "REFERER").
  reflexivity.
Defined.

Lemma leaks_of_result_handled (field timestamp : string) (result : match_tuple) :
  leaks_of_result field timestamp result
  = if handled_length result then [normalized_record field timestamp result]
    else [].
Proof.
  unfold leaks_of_result, check_result, handled_length, normalized_record.
  destruct result as [| a [| b [| c [| d [| e result]]]]]; reflexivity.
Qed.

Lemma flat_map_handled (field timestamp : string) (results : list match_tuple) :
  flat_map (leaks_of_result field timestamp) results
  = map (normalized_record field timestamp) (filter handled_length results).
Proof.
  induction results as [| r results IH]; simpl; [reflexivity |].
  rewrite leaks_of_result_handled, IH.
  now destruct (handled_length r).
Qed.

(** X10: the three branches of [check_field] are one rule.  When the
    check of a non-empty content returns, the records are, for the
    tuples of length 2, 3 or 4 in order, the hyphen-joined elements but
    the last as chain and the last element as leaked value; so there are
    as many records as such tuples, and never more than tuples. *)
Theorem check_field_uniform_rule :
  forall (field content : string) (method : string -> M (list match_tuple))
         (timestamp : string) (results : list match_tuple) (calls : list call),
    content <> "" ->
    method content = (Returned results, calls) ->
    check_field field (Some content) method timestamp
    = (Returned (map (normalized_record field timestamp)
                     (filter handled_length results)),
       calls) /\
    length (filter handled_length results) <= length results.
Proof.
  intros field content method timestamp results calls Hne Hm. split.
  - rewrite (check_field_returned field content method timestamp results calls Hne Hm).
    now rewrite flat_map_handled.
  - apply filter_length_le.
Qed.

Lemma check_field_uniform_rule_witness :
  check_field "postData" (Some "name=Ann+Lee")
    (invoke every_shape_detector check_post_data) "t"
  = (Returned (map (normalized_record "postData" "t")
                   (filter handled_length sample_results)),
     [(check_post_data, "name=Ann+Lee")]) /\
  length (filter handled_length sample_results) <= length sample_results.
Proof.
  apply (check_field_uniform_rule "postData" "name=Ann+Lee"
           (invoke every_shape_detector check_post_data) "t" sample_results
           [(check_post_data, "name=Ann+Lee")]).
  - discriminate.
  - reflexivity.
Defined.

(** ** More on the loop over the entries of a capture *)

Lemma dict_get_none_keys {V : Type} (d : Dict.t V) (k : string) :
  Dict.get d k = None -> ~ In k (map fst d).
Proof.
  induction d as [| [k' v'] d IH]; simpl; [tauto |].
  destruct (String.eqb k' k) eqn:E; [discriminate |].
  intros H [Heq | Hin]; [| now apply IH].
  subst. now rewrite String.eqb_refl in E.
Qed.

Lemma dict_set_keys {V : Type} (d : Dict.t V) (k : string) (v : V) :
  map fst (Dict.set d k v)
  = if Dict.mem d k then map fst d else map fst d ++ [k].
Proof.
  unfold Dict.mem. induction d as [| [k' v'] d IH]; simpl; [reflexivity |].
  destruct (String.eqb k' k) eqn:E; simpl; [reflexivity |].
  rewrite IH. now destruct (Dict.get d k).
Qed.

Lemma dict_set_nodup {V : Type} (d : Dict.t V) (k : string) (v : V) :
  NoDup (map fst d) -> NoDup (map fst (Dict.set d k v)).
Proof.
  intros Hd. rewrite dict_set_keys. unfold Dict.mem.
  destruct (Dict.get d k) eqn:E; [exact Hd |].
  apply dict_get_none_keys in E.
  apply NoDup_app; [exact Hd | repeat constructor; tauto |].
  intros x Hx [<- | []]. contradiction.
Qed.

Lemma dict_in_get {V : Type} (d : Dict.t V) (k : string) (v : V) :
  NoDup (map fst d) -> In (k, v) d -> Dict.get d k = Some v.
Proof.
  induction d as [| [k' v'] d IH]; simpl; [tauto |].
  intros Hd [Heq | Hin].
  - injection Heq as -> ->. now rewrite String.eqb_refl.
  - inversion Hd as [| ? ? Hnot Hrest]; subst.
    destruct (String.eqb k' k) eqn:E; [| now apply IH].
    apply String.eqb_eq in E. subst k'. exfalso. apply Hnot.
    apply in_map_iff. now exists (k, v).
Qed.

Lemma add_leaks_nodup (leaks : Dict.t (list LeakRecord)) (key : string)
    (all_leaks : list LeakRecord) :
  NoDup (map fst leaks) -> NoDup (map fst (add_leaks leaks key all_leaks)).
Proof.
  intros Hd. unfold add_leaks.
  destruct (negb (Dict.mem leaks key)); now repeat apply dict_set_nodup.
Qed.

Lemma add_leaks_get_default (leaks : Dict.t (list LeakRecord)) (key k : string)
    (all_leaks : list LeakRecord) :
  Dict.get_default (add_leaks leaks key all_leaks) k []
  = Dict.get_default leaks k []
    ++ (if String.eqb key k then all_leaks else []).
Proof.
  unfold Dict.get_default at 1. destruct (String.eqb key k) eqn:E.
  - apply String.eqb_eq in E. subst k. now rewrite add_leaks_get.
  - apply String.eqb_neq in E. rewrite add_leaks_get_other by congruence.
    now rewrite app_nil_r.
Qed.

Section Capture.

Variable tldextract_extract : string -> ExtractResult.
Variable leak_detector : detector.

Let step := process_entry tldextract_extract leak_detector.

(** What one entry does when it returns. *)
Lemma process_entry_returned (st st' : loop_state) (entry : har_entry)
    (calls : list call) :
  step st entry = (Returned st', calls) ->
  calls = entry_calls entry /\
  st_entry_url_domain st'
  = domain_after tldextract_extract (st_entry_url_domain st) entry /\
  ((entry_leaks leak_detector entry = [] /\ st_leaks st' = st_leaks st) \/
   (entry_leaks leak_detector entry <> [] /\
    exists key,
      domain_after tldextract_extract (st_entry_url_domain st) entry = Some key /\
      st_leaks st' = add_leaks (st_leaks st) key (entry_leaks leak_detector entry))).
Proof.
  intros Hstep.
  pose proof (check_entry_spec leak_detector (entry_timestamp entry) entry) as Hc.
  fold (entry_leaks leak_detector entry) in Hc. fold (entry_calls entry) in Hc.
  destruct (entry_leaks leak_detector entry) as [| x xs] eqn:Hl.
  - unfold step in Hstep.
    rewrite (process_entry_quiet tldextract_extract leak_detector st entry _ Hc)
      in Hstep.
    injection Hstep as <- <-. split; [reflexivity |]. split; [reflexivity |].
    left. now split.
  - destruct (domain_after tldextract_extract (st_entry_url_domain st) entry)
      as [key |] eqn:Hd; unfold step in Hstep.
    + rewrite (process_entry_bound tldextract_extract leak_detector st entry
                 _ _ key Hc) in Hstep; [| discriminate | exact Hd].
      injection Hstep as <- <-. split; [reflexivity |]. split; [reflexivity |].
      right. split; [discriminate |]. now exists key.
    + rewrite (process_entry_unbound tldextract_extract leak_detector st entry
                 _ _ Hc) in Hstep; [discriminate | discriminate | exact Hd].
Qed.

Lemma loop_attributed (entries : list har_entry) :
  forall st st' calls,
    for_each step entries st = (Returned st', calls) ->
    forall key,
      Dict.get_default (st_leaks st') key []
      = Dict.get_default (st_leaks st) key []
        ++ attributed tldextract_extract leak_detector key
             (st_entry_url_domain st) entries.
Proof.
  induction entries as [| entry entries IH]; intros st st' calls Hrun key.
  - injection Hrun as <- _. simpl. now rewrite app_nil_r.
  - cbn [for_each] in Hrun. apply bind_returned_inv in Hrun.
    destruct Hrun as [st1 [calls1 [calls2 [Hstep [Hrest _]]]]].
    apply process_entry_returned in Hstep.
    destruct Hstep as [_ [Hdom Hleaks]].
    rewrite (IH st1 st' calls2 Hrest key). cbn [attributed]. rewrite Hdom.
    destruct Hleaks as [[Hnone ->] | [_ [k [Hk ->]]]].
    + rewrite Hnone.
      destruct (domain_after tldextract_extract (st_entry_url_domain st) entry)
        as [k |]; [destruct (String.eqb k key) |]; reflexivity.
    + rewrite Hk, add_leaks_get_default, <- app_assoc. reflexivity.
Qed.

Lemma loop_nodup (entries : list har_entry) :
  forall st st' calls,
    for_each step entries st = (Returned st', calls) ->
    NoDup (map fst (st_leaks st)) ->
    NoDup (map fst (st_leaks st')).
Proof.
  induction entries as [| entry entries IH]; intros st st' calls Hrun Hd.
  - now injection Hrun as <- _.
  - cbn [for_each] in Hrun. apply bind_returned_inv in Hrun.
    destruct Hrun as [st1 [calls1 [calls2 [Hstep [Hrest _]]]]].
    apply (IH st1 st' calls2 Hrest).
    apply process_entry_returned in Hstep.
    destruct Hstep as [_ [_ [[_ ->] | [_ [k [_ ->]]]]]];
      [exact Hd | now apply add_leaks_nodup].
Qed.

Lemma loop_calls (entries : list har_entry) :
  forall st st' calls,
    for_each step entries st = (Returned st', calls) ->
    calls = flat_map entry_calls entries.
Proof.
  induction entries as [| entry entries IH]; intros st st' calls Hrun.
  - now injection Hrun as _ <-.
  - cbn [for_each] in Hrun. apply bind_returned_inv in Hrun.
    destruct Hrun as [st1 [calls1 [calls2 [Hstep [Hrest ->]]]]].
    apply process_entry_returned in Hstep. destruct Hstep as [-> _].
    cbn [flat_map]. now rewrite (IH st1 st' calls2 Hrest).
Qed.

Lemma loop_bound_returns (entries : list har_entry) :
  forall st key,
    st_entry_url_domain st = Some key ->
    exists st', for_each step entries st = (Returned st', flat_map entry_calls entries).
Proof.
  induction entries as [| entry entries IH]; intros st key Hbound.
  - now exists st.
  - cbn [for_each flat_map].
    destruct (process_entry_cases tldextract_extract leak_detector st entry)
      as [[st1 [calls1 [Hstep Hdom]]] | [calls1 Hstep]].
    + fold step in Hstep. rewrite Hstep, bind_returned.
      assert (Hb1 : exists k, st_entry_url_domain st1 = Some k).
      { rewrite Hdom, Hbound. unfold domain_after.
        destruct (request_url entry) as [[| c r] |]; eauto. }
      destruct Hb1 as [k Hb1]. destruct (IH st1 k Hb1) as [st' Hrest].
      rewrite Hrest. cbn [fst snd]. exists st'.
      apply process_entry_returned in Hstep. now destruct Hstep as [-> _].
    + exfalso. fold step in Hstep.
      pose proof (check_entry_spec leak_detector (entry_timestamp entry) entry) as Hc.
      destruct (flat_map (input_leaks leak_detector (entry_timestamp entry))
                  (detection_inputs entry)) as [| x xs] eqn:Hl.
      * unfold step in Hstep.
        rewrite (process_entry_quiet tldextract_extract leak_detector st entry _ Hc)
          in Hstep. discriminate.
      * assert (Hd : exists k,
                   domain_after tldextract_extract (st_entry_url_domain st) entry
                   = Some k).
        { rewrite Hbound. unfold domain_after.
          destruct (request_url entry) as [[| c r] |]; eauto. }
        destruct Hd as [k Hd]. unfold step in Hstep.
        rewrite (process_entry_bound tldextract_extract leak_detector st entry
                   _ _ k Hc) in Hstep; [discriminate | discriminate | exact Hd].
Qed.

Lemma process_entry_raised (st : loop_state) (entry : har_entry) (e : exn)
    (calls : list call) :
  step st entry = (Raised e, calls) ->
  e = UnboundLocalError /\
  entry_leaks leak_detector entry <> [] /\
  domain_after tldextract_extract (st_entry_url_domain st) entry = None.
Proof.
  intros Hstep.
  pose proof (check_entry_spec leak_detector (entry_timestamp entry) entry) as Hc.
  fold (entry_leaks leak_detector entry) in Hc.
  destruct (entry_leaks leak_detector entry) as [| x xs] eqn:Hl.
  - unfold step in Hstep.
    rewrite (process_entry_quiet tldextract_extract leak_detector st entry _ Hc)
      in Hstep. discriminate.
  - destruct (domain_after tldextract_extract (st_entry_url_domain st) entry)
      as [key |] eqn:Hd; unfold step in Hstep.
    + rewrite (process_entry_bound tldextract_extract leak_detector st entry
                 _ _ key Hc) in Hstep; [discriminate | discriminate | exact Hd].
    + rewrite (process_entry_unbound tldextract_extract leak_detector st entry
                 _ _ Hc) in Hstep; [| discriminate | exact Hd].
      injection Hstep as <- _. repeat split. discriminate.
Qed.

Lemma domain_after_has_url (bound : option string) (entry : har_entry) :
  has_url entry = true ->
  exists key, domain_after tldextract_extract bound entry = Some key.
Proof.
  unfold has_url, domain_after.
  destruct (request_url entry) as [[| c r] |]; try discriminate. eauto.
Qed.

Lemma domain_after_none (bound : option string) (entry : har_entry) :
  domain_after tldextract_extract bound entry = None ->
  has_url entry = false /\ bound = None.
Proof.
  unfold has_url, domain_after.
  destruct (request_url entry) as [[| c r] |]; try discriminate; auto.
Qed.

Lemma loop_raises_inv (entries : list har_entry) :
  forall st e calls,
    for_each step entries st = (Raised e, calls) ->
    exists front entry back,
      entries = front ++ entry :: back /\
      Forall (fun x => has_url x = false) front /\
      has_url entry = false /\
      entry_leaks leak_detector entry <> [].
Proof.
  induction entries as [| entry entries IH]; intros st e calls Hrun.
  - discriminate.
  - cbn [for_each] in Hrun.
    destruct (step st entry) as [[st1 | e1] calls1] eqn:Hstep.
    + rewrite bind_returned in Hrun.
      destruct (for_each step entries st1) as [[st2 | e2] calls2] eqn:Hrest;
        [discriminate |].
      destruct (IH st1 e2 calls2 Hrest) as [front [x [back [-> [Hf [Hx Hl]]]]]].
      destruct (has_url entry) eqn:Hu.
      * exfalso. apply process_entry_returned in Hstep.
        destruct Hstep as [_ [Hdom _]].
        destruct (domain_after_has_url (st_entry_url_domain st) entry Hu) as [k Hk].
        rewrite Hk in Hdom.
        destruct (loop_bound_returns (front ++ x :: back) st1 k Hdom) as [st' H'].
        fold step in H'. rewrite H' in Hrest. discriminate.
      * exists (entry :: front), x, back. split; [reflexivity |].
        split; [now constructor |]. now split.
    + apply process_entry_raised in Hstep. destruct Hstep as [_ [Hl Hd]].
      apply domain_after_none in Hd. destruct Hd as [Hu _].
      exists [], entry, entries. split; [reflexivity |]. split; [constructor |].
      now split.
Qed.

Lemma attributed_in (key : string) (entries : list har_entry) :
  forall bound r,
    In r (attributed tldextract_extract leak_detector key bound entries) ->
    exists entry, In entry entries /\ In r (entry_leaks leak_detector entry).
Proof.
  induction entries as [| entry entries IH]; intros bound r Hin; [contradiction |].
  cbn [attributed] in Hin. apply in_app_or in Hin. destruct Hin as [Hin | Hin].
  - exists entry. split; [now left |].
    destruct (domain_after tldextract_extract bound entry) as [k |];
      [destruct (String.eqb k key) |]; try contradiction. exact Hin.
  - destruct (IH _ r Hin) as [x [Hx Hr]]. exists x. split; [now right | exact Hr].
Qed.

(** X11: when a capture is processed, the records under a domain key are
    those of the entries attributed to the key, in the order of the
    capture: an entry with a URL is attributed to the key of its URL, an
    entry without one to the key of the last entry before it that has
    one.  A key with no record is not in the dict. *)
Theorem process_har_groups_by_domain :
  forall (entries : list har_entry) (site : string)
         (leaks : Dict.t (list LeakRecord)) (calls : list call),
    process_har_and_check_for_leaks tldextract_extract entries site leak_detector
    = (Returned leaks, calls) ->
    forall key,
      Dict.get leaks key
      = match attributed tldextract_extract leak_detector key None entries with
        | [] => None
        | group => Some group
        end.
Proof.
  intros entries site leaks calls Hrun key.
  destruct (process_har_leaks_origin tldextract_extract leak_detector entries
              site leaks calls Hrun) as [Hgroups _].
  unfold process_har_and_check_for_leaks in Hrun. cbv zeta in Hrun.
  apply bind_returned_inv in Hrun.
  destruct Hrun as [st [calls1 [calls2 [Hloop [Hret _]]]]].
  injection Hret as <- _.
  pose proof (loop_attributed entries _ st calls1 Hloop key) as Hkey.
  cbn [st_leaks st_entry_url_domain Dict.get_default Dict.get app] in Hkey.
  unfold Dict.get_default in Hkey.
  destruct (Dict.get (st_leaks st) key) as [group |] eqn:Hget.
  - rewrite <- Hkey. apply dict_get_in in Hget.
    unfold groups_nonempty in Hgroups. rewrite Forall_forall in Hgroups.
    specialize (Hgroups _ Hget). simpl in Hgroups.
    destruct group; [contradiction | reflexivity].
  - now rewrite <- Hkey.
Qed.

(** X12: the dict of a processed capture has no domain key twice; each
    group is found under its key and holds a record. *)
Theorem process_har_domains_are_distinct :
  forall (entries : list har_entry) (site : string)
         (leaks : Dict.t (list LeakRecord)) (calls : list call),
    process_har_and_check_for_leaks tldextract_extract entries site leak_detector
    = (Returned leaks, calls) ->
    NoDup (map fst leaks) /\
    (forall key group,
        In (key, group) leaks -> Dict.get leaks key = Some group /\ group <> []).
Proof.
  intros entries site leaks calls Hrun.
  destruct (process_har_leaks_origin tldextract_extract leak_detector entries
              site leaks calls Hrun) as [Hgroups _].
  unfold process_har_and_check_for_leaks in Hrun. cbv zeta in Hrun.
  apply bind_returned_inv in Hrun.
  destruct Hrun as [st [calls1 [calls2 [Hloop [Hret _]]]]].
  injection Hret as <- _.
  assert (Hd : NoDup (map fst (st_leaks st))).
  { apply (loop_nodup entries _ st calls1 Hloop). constructor. }
  split; [exact Hd |]. intros key group Hin. split.
  - now apply dict_in_get.
  - unfold groups_nonempty in Hgroups. rewrite Forall_forall in Hgroups.
    exact (Hgroups _ Hin).
Qed.

(** X13: a capture whose first entry has a request URL is always
    processed: no later entry can meet the unbound variable. *)
Theorem process_har_returns_after_first_url :
  forall (entry : har_entry) (rest : list har_entry) (site : string),
    has_url entry = true ->
    exists leaks,
      process_har_and_check_for_leaks tldextract_extract (entry :: rest) site
        leak_detector
      = (Returned leaks, flat_map entry_calls (entry :: rest)).
Proof.
  intros entry rest site Hu.
  unfold process_har_and_check_for_leaks. cbv zeta. fold step. cbn [for_each].
  destruct (domain_after_has_url None entry Hu) as [k Hk].
  destruct (step {| st_leaks := []; st_entry_url_domain := None |} entry)
    as [[st1 | e1] calls1] eqn:Hstep.
  - apply process_entry_returned in Hstep.
    destruct Hstep as [-> [Hdom _]]. cbn [st_entry_url_domain] in Hdom.
    rewrite Hk in Hdom.
    destruct (loop_bound_returns rest st1 k Hdom) as [st' Hrest]. fold step in Hrest.
    rewrite bind_returned, Hrest. cbn [fst snd]. rewrite bind_returned.
    cbn [ret fst snd flat_map]. rewrite app_nil_r. now exists (st_leaks st').
  - apply process_entry_raised in Hstep. destruct Hstep as [_ [_ Hd]].
    cbn [st_entry_url_domain] in Hd. congruence.
Qed.

(** X14: when a capture is processed, the detector was called for every
    entry in the order of the capture, and for an entry on its non-empty
    fields in order, then on each of its cookies. *)
Theorem process_har_calls_in_capture_order :
  forall (entries : list har_entry) (site : string)
         (leaks : Dict.t (list LeakRecord)) (calls : list call),
    process_har_and_check_for_leaks tldextract_extract entries site leak_detector
    = (Returned leaks, calls) ->
    calls
    = flat_map (fun entry =>
                  map input_call (field_inputs entry)
                  ++ map (fun c => (check_cookie_str, cookie_string c))
                       (cookies entry))
        entries.
Proof.
  intros entries site leaks calls Hrun.
  unfold process_har_and_check_for_leaks in Hrun. cbv zeta in Hrun.
  apply bind_returned_inv in Hrun.
  destruct Hrun as [st [calls1 [calls2 [Hloop [Hret ->]]]]].
  injection Hret as _ <-. rewrite app_nil_r.
  rewrite (loop_calls entries _ st calls1 Hloop).
  apply flat_map_ext. intros entry.
  unfold entry_calls, detection_inputs. now rewrite map_app, map_map.
Qed.

(** X15: with a detector whose checks return, a capture is not processed
    exactly when one of its entries has no request URL, has a check that
    finds a leak, and comes before every entry with a URL; the exception
    is then [UnboundLocalError]. *)
Theorem process_har_raises_iff :
  forall (entries : list har_entry) (site : string) (e : exn),
    fst (process_har_and_check_for_leaks tldextract_extract entries site
           leak_detector)
    = Raised e <->
    e = UnboundLocalError /\
    exists front entry back,
      entries = front ++ entry :: back /\
      Forall (fun x => has_url x = false) front /\
      has_url entry = false /\
      entry_leaks leak_detector entry <> [].
Proof.
  intros entries site e.
  unfold process_har_and_check_for_leaks. cbv zeta. fold step. split.
  - intros Hrun.
    destruct (for_each step entries {| st_leaks := []; st_entry_url_domain := None |})
      as [[st | e1] calls1] eqn:Hloop.
    + rewrite bind_returned in Hrun. discriminate.
    + rewrite bind_raised in Hrun. cbn [fst] in Hrun. injection Hrun as ->.
      split.
      * exact (for_each_raises _ _ _ _ _ _ Hloop).
      * exact (loop_raises_inv _ _ _ _ Hloop).
  - intros [-> [front [entry [back [-> [Hfront [Hu Hl]]]]]]].
    rewrite for_each_app.
    destruct (for_each step front {| st_leaks := []; st_entry_url_domain := None |})
      as [[st | e1] calls1] eqn:Hloop.
    + rewrite bind_returned. cbn [for_each].
      pose proof (check_entry_spec leak_detector (entry_timestamp entry) entry) as Hc.
      assert (Hstep : step st entry = (Raised UnboundLocalError, entry_calls entry)).
      { apply (process_entry_unbound tldextract_extract leak_detector st entry
                 _ _ Hc Hl).
        rewrite domain_after_no_url by assumption.
        rewrite (for_each_domain tldextract_extract leak_detector front _ st
                   calls1 Hloop).
        now apply fold_domain_after_no_url. }
      rewrite Hstep. reflexivity.
    + apply for_each_raises in Hloop. now subst e1.
Qed.

(** X16: every record of a processed capture comes from a tuple, of
    length 2, 3 or 4, that the detector answered on a detection input of
    an entry of the capture; it carries the field name of that input, one
    of the six, and the timestamp of that entry. *)
Theorem reported_records_provenance :
  forall (entries : list har_entry) (site : string)
         (leaks : Dict.t (list LeakRecord)) (calls : list call),
    process_har_and_check_for_leaks tldextract_extract entries site leak_detector
    = (Returned leaks, calls) ->
    forall key group r,
      In (key, group) leaks ->
      In r group ->
      exists entry field op content result,
        In entry entries /\
        In (field, op, content) (detection_inputs entry) /\
        In result (leak_detector op content) /\
        handled_length result = true /\
        r = normalized_record field (entry_timestamp entry) result /\
        leak_method r = field /\
        In field field_names /\
        timestamp r = entry_timestamp entry.
Proof.
  intros entries site leaks calls Hrun key group r Hgroup Hr.
  destruct (process_har_leaks_origin tldextract_extract leak_detector entries
              site leaks calls Hrun) as [Hgroups _].
  unfold process_har_and_check_for_leaks in Hrun. cbv zeta in Hrun.
  apply bind_returned_inv in Hrun.
  destruct Hrun as [st [calls1 [calls2 [Hloop [Hret _]]]]].
  injection Hret as <- _.
  assert (Hd : NoDup (map fst (st_leaks st))).
  { apply (loop_nodup entries _ st calls1 Hloop). constructor. }
  pose proof (loop_attributed entries _ st calls1 Hloop key) as Hkey.
  cbn [st_leaks st_entry_url_domain Dict.get_default Dict.get app] in Hkey.
  unfold Dict.get_default in Hkey.
  rewrite (dict_in_get _ _ _ Hd Hgroup) in Hkey. subst group.
  apply attributed_in in Hr. destruct Hr as [entry [Hentry Hr]].
  unfold entry_leaks in Hr. apply in_flat_map in Hr.
  destruct Hr as [[[field op] content] [Hinput Hr]].
  cbn [input_leaks] in Hr. apply in_flat_map in Hr.
  destruct Hr as [result [Hresult Hr]].
  rewrite leaks_of_result_handled in Hr.
  destruct (handled_length result) eqn:Hh; [| contradiction].
  destruct Hr as [<- | []].
  exists entry, field, op, content, result.
  split; [exact Hentry |]. split; [exact Hinput |]. split; [exact Hresult |].
  split; [exact Hh |]. split; [reflexivity |]. split; [reflexivity |].
  split; [| reflexivity].
  now apply detection_inputs_field_names in Hinput.
Qed.

End Capture.

Lemma process_har_groups_by_domain_witness :
  Dict.get sample_capture_leaks "tracker.net"
  = match attributed sample_extract sample_detector "tracker.net" None
            sample_capture with
    | [] => None
    | group => Some group
    end.
Proof.
  apply (process_har_groups_by_domain sample_extract sample_detector
           sample_capture "shop.example" sample_capture_leaks
           sample_capture_calls).
  reflexivity.
Defined.

Example sample_capture_attribution :
  attributed sample_extract sample_detector "tracker.net" None sample_capture
  = [leak_in_url; leak_in_cookie] /\
  attributed sample_extract sample_detector "blob-url" None sample_capture
  = [leak_in_body; leak_in_body] /\
  attributed sample_extract sample_detector "example.com" None sample_capture = [].
Proof. repeat split. Qed.

Lemma process_har_domains_are_distinct_witness :
  NoDup (map fst sample_capture_leaks) /\
  (forall key group,
      In (key, group) sample_capture_leaks ->
      Dict.get sample_capture_leaks key = Some group /\ group <> []).
Proof.
  apply (process_har_domains_are_distinct sample_extract sample_detector
           sample_capture "shop.example" sample_capture_leaks
           sample_capture_calls).
  reflexivity.
Defined.

Lemma process_har_returns_after_first_url_witness :
  exists leaks,
    process_har_and_check_for_leaks sample_extract
      (entry_blob :: [entry_tracker; entry_no_url; entry_blob]) "shop.example"
      sample_detector
    = (Returned leaks,
       flat_map entry_calls (entry_blob :: [entry_tracker; entry_no_url; entry_blob])).
Proof.
  apply (process_har_returns_after_first_url sample_extract sample_detector
           entry_blob [entry_tracker; entry_no_url; entry_blob] "shop.example").
  reflexivity.
Defined.

Lemma process_har_calls_in_capture_order_witness :
  sample_capture_calls
  = flat_map (fun entry =>
                map input_call (field_inputs entry)
                ++ map (fun c => (check_cookie_str, cookie_string c))
                     (cookies entry))
      sample_capture.
Proof.
  apply (process_har_calls_in_capture_order sample_extract sample_detector
           sample_capture "shop.example" sample_capture_leaks
           sample_capture_calls).
  reflexivity.
Defined.

Lemma process_har_raises_iff_witness :
  fst (process_har_and_check_for_leaks sample_extract
         [blank_entry; entry_no_url; entry_tracker] "shop.example" sample_detector)
  = Raised UnboundLocalError.
Proof.
  apply (proj2 (process_har_raises_iff sample_extract sample_detector
                  [blank_entry; entry_no_url; entry_tracker] "shop.example"
                  UnboundLocalError)).
  split; [reflexivity |].
  exists [blank_entry], entry_no_url, [entry_tracker].
  split; [reflexivity |]. split; [repeat constructor |].
  split; [reflexivity | discriminate].
Defined.

Lemma reported_records_provenance_witness :
  exists entry field op content result,
    In entry sample_capture /\
    In (field, op, content) (detection_inputs entry) /\
    In result (sample_detector op content) /\
    handled_length result = true /\
    leak_in_cookie = normalized_record field (entry_timestamp entry) result /\
    leak_method leak_in_cookie = field /\
    In field field_names /\
    timestamp leak_in_cookie = entry_timestamp entry.
Proof.
  apply (reported_records_provenance sample_extract sample_detector
           sample_capture "shop.example" sample_capture_leaks
           sample_capture_calls eq_refl "tracker.net"
           [leak_in_url; leak_in_cookie] leak_in_cookie).
  - simpl. right. left. reflexivity.
  - simpl. right. left. reflexivity.
Defined.

(** ** More on the formatter and on the pipeline over all sites *)

Lemma bind_ret {A B : Type} (a : A) (f : A -> M B) : bind (ret a) f = f a.
Proof. unfold ret. rewrite bind_returned. now destruct (f a). Qed.

(** X17: [format_site_results] keeps the site, and its groups are those
    of the dict, key by key in the order of the dict: the dict is read
    back from them. *)
Theorem format_site_results_round_trip :
  forall (site : string) (site_leaks : Dict.t (list LeakRecord)),
    website (format_site_results site site_leaks) = site /\
    map (fun group => (leak_domain group, data_leaked group))
        (leaks (format_site_results site site_leaks))
    = site_leaks /\
    map leak_domain (leaks (format_site_results site site_leaks))
    = map fst site_leaks.
Proof.
  intros site site_leaks. split; [reflexivity |].
  rewrite format_site_results_leaks, !map_map. cbn [leak_domain data_leaked].
  split.
  - rewrite <- (map_id site_leaks) at 2. apply map_ext. now intros [k v].
  - reflexivity.
Qed.

Section MoreSites.

Variable tldextract_extract : string -> ExtractResult.
Variable LeakDetector_new : list pyval -> nat -> nat -> detector.
Variable site_country_map : Dict.t string.
Variable general : Dict.t pyval.
Variable profiles : Dict.t (Dict.t pyval).

Let run := site_run tldextract_extract LeakDetector_new site_country_map
             general profiles.
Let site_step := process_site tldextract_extract LeakDetector_new
                   site_country_map general profiles.
Let results_of := site_results tldextract_extract LeakDetector_new
                    site_country_map general profiles.

Lemma site_step_some (final_results : list site_entry) (site : string)
    (entries : list har_entry) :
  site_step final_results (site, Some entries)
  = bind (run site entries)
      (fun site_leaks => ret (final_results ++ site_result site site_leaks)).
Proof. apply process_site_some. Qed.

Lemma site_step_none (final_results : list site_entry) (name : string) :
  site_step final_results (name, None) = ret final_results.
Proof. reflexivity. Qed.

Lemma sites_loop_skip (front : list (string * option (list har_entry)))
    (name : string) (back : list (string * option (list har_entry))) :
  forall final_results,
    for_each site_step (front ++ (name, None) :: back) final_results
    = for_each site_step (front ++ back) final_results.
Proof.
  induction front as [| item front IH]; intros final_results.
  - cbn [app for_each]. rewrite site_step_none. apply bind_ret.
  - cbn [app for_each].
    destruct (site_step final_results item) as [[final1 | e] calls]; [| reflexivity].
    rewrite !bind_returned. now rewrite IH.
Qed.

Lemma sites_loop_returning (front : list (string * option (list har_entry))) :
  (forall site entries,
      In (site, Some entries) front ->
      exists site_leaks, fst (run site entries) = Returned site_leaks) ->
  forall final_results,
    exists calls,
      for_each site_step front final_results
      = (Returned (final_results ++ flat_map results_of front), calls).
Proof.
  induction front as [| [site har] front IH]; intros Hall final_results.
  - exists []. simpl. now rewrite app_nil_r.
  - cbn [for_each flat_map].
    assert (Hrest : forall s es,
               In (s, Some es) front ->
               exists site_leaks, fst (run s es) = Returned site_leaks).
    { intros s es Hin. apply Hall. now right. }
    destruct har as [entries |].
    + destruct (Hall site entries (or_introl eq_refl)) as [site_leaks Hsite].
      rewrite site_step_some.
      assert (Hres : results_of (site, Some entries) = site_result site site_leaks).
      { unfold results_of. cbn [site_results]. fold run. now rewrite Hsite. }
      rewrite Hres.
      destruct (run site entries) as [o calls1]. cbn [fst] in Hsite. subst o.
      rewrite bind_returned. cbn [ret fst snd]. rewrite bind_returned.
      destruct (IH Hrest (final_results ++ site_result site site_leaks))
        as [calls2 Hloop].
      rewrite Hloop. cbn [fst snd]. eexists. rewrite <- app_assoc. reflexivity.
    + rewrite site_step_none, bind_ret.
      destruct (IH Hrest final_results) as [calls2 Hloop]. rewrite Hloop.
      now exists calls2.
Qed.

(** X18: a name of the base folder that is not a directory with a
    capture file changes nothing: the pipeline behaves as if the name
    were not there. *)
Theorem names_without_capture_are_skipped :
  forall (front : list (string * option (list har_entry))) (name : string)
         (back : list (string * option (list har_entry))),
    process_all_hars_and_check_for_leaks tldextract_extract LeakDetector_new
      (front ++ (name, None) :: back) site_country_map general profiles
    = process_all_hars_and_check_for_leaks tldextract_extract LeakDetector_new
        (front ++ back) site_country_map general profiles.
Proof.
  intros front name back. unfold process_all_hars_and_check_for_leaks.
  cbv zeta. fold site_step. now rewrite sites_loop_skip.
Qed.

(** X19: the pipeline stops at the first site that fails.  When the
    sites before it are processed and its own search strings or capture
    raise an exception, the pipeline raises that exception: nothing is
    written, whatever the sites before it leaked, and the names after it
    are not looked at. *)
Theorem failing_site_fails_the_pipeline :
  forall (front : list (string * option (list har_entry))) (site : string)
         (entries : list har_entry)
         (back : list (string * option (list har_entry))) (e : exn),
    (forall s es,
        In (s, Some es) front ->
        exists site_leaks,
          fst (site_run tldextract_extract LeakDetector_new site_country_map
                 general profiles s es)
          = Returned site_leaks) ->
    fst (site_run tldextract_extract LeakDetector_new site_country_map
           general profiles site entries)
    = Raised e ->
    fst (process_all_hars_and_check_for_leaks tldextract_extract LeakDetector_new
           (front ++ (site, Some entries) :: back) site_country_map general
           profiles)
    = Raised e /\
    process_all_hars_and_check_for_leaks tldextract_extract LeakDetector_new
      (front ++ (site, Some entries) :: back) site_country_map general profiles
    = process_all_hars_and_check_for_leaks tldextract_extract LeakDetector_new
        (front ++ [(site, Some entries)]) site_country_map general profiles.
Proof.
  intros front site entries back e Hfront Hsite.
  unfold process_all_hars_and_check_for_leaks. cbv zeta. fold site_step.
  rewrite !for_each_app.
  destruct (sites_loop_returning front Hfront []) as [calls Hloop].
  rewrite Hloop, !bind_returned. cbn [for_each fst snd].
  rewrite !site_step_some. fold run in Hsite.
  destruct (run site entries) as [o calls1]. cbn [fst] in Hsite. subst o.
  rewrite !bind_raised. cbn [fst snd]. rewrite !bind_raised. now split.
Qed.

(** X20: when the pipeline returns, what it hands over is, in the order
    of the base folder, the formatted result of each name whose capture
    gave a dict of leaks that is not empty. *)
Theorem pipeline_output_in_listing_order :
  forall (listing : list (string * option (list har_entry)))
         (written : option (list site_entry)) (calls : list call),
    process_all_hars_and_check_for_leaks tldextract_extract LeakDetector_new
      listing site_country_map general profiles
    = (Returned written, calls) ->
    written
    = match flat_map (site_results tldextract_extract LeakDetector_new
                        site_country_map general profiles) listing with
      | [] => None
      | final_results => Some final_results
      end.
Proof.
  intros listing written calls Hrun.
  unfold process_all_hars_and_check_for_leaks in Hrun. cbv zeta in Hrun.
  apply bind_returned_inv in Hrun.
  destruct Hrun as [final [calls1 [calls2 [Hloop [Hret _]]]]].
  apply sites_loop in Hloop. destruct Hloop as [Hfinal _]. cbn [app] in Hfinal.
  rewrite <- Hfinal. destruct final; now injection Hret as <- _.
Qed.

End MoreSites.

Lemma names_without_capture_are_skipped_example :
  process_all_hars_and_check_for_leaks sample_extract sample_LeakDetector_new
    sample_listing sample_site_country_map ex_general sample_profiles
  = process_all_hars_and_check_for_leaks sample_extract sample_LeakDetector_new
      [("shop.example", Some [entry_tracker; entry_no_url]);
       ("quiet.example", Some [entry_quiet])]
      sample_site_country_map ex_general sample_profiles.
Proof. reflexivity. Qed.

Lemma failing_site_fails_the_pipeline_witness :
  fst (process_all_hars_and_check_for_leaks sample_extract sample_LeakDetector_new
         ([("shop.example", Some [entry_tracker; entry_no_url])]
          ++ ("broken.example", Some [entry_no_url])
          :: [("quiet.example", Some [entry_quiet])])
         sample_site_country_map ex_general sample_profiles)
  = Raised UnboundLocalError.
Proof.
  apply (failing_site_fails_the_pipeline sample_extract sample_LeakDetector_new
           sample_site_country_map ex_general sample_profiles
           [("shop.example", Some [entry_tracker; entry_no_url])]
           "broken.example" [entry_no_url]
           [("quiet.example", Some [entry_quiet])] UnboundLocalError).
  - intros s es [H | []]. injection H as <- <-. eexists. reflexivity.
  - reflexivity.
Defined.

Lemma pipeline_output_in_listing_order_witness :
  Some [sample_report]
  = match flat_map (site_results sample_extract sample_LeakDetector_new
                      sample_site_country_map ex_general sample_profiles)
            sample_listing with
    | [] => None
    | final_results => Some final_results
    end.
Proof.
  apply (pipeline_output_in_listing_order sample_extract sample_LeakDetector_new
           sample_site_country_map ex_general sample_profiles sample_listing
           (Some [sample_report])
           [(check_url, "https://ads.tracker.net/p?u=QW5uIExlZQ");
            (check_referrer_str, "https://www.example.com/");
            (check_cookie_str, "uid=Lee"); (check_cookie_str, "sid=None");
            (check_url, "https://www.example.com/")]).
  reflexivity.
Defined.

(** ** The site-language mapping file *)

Lemma lower_char_idempotent (c : ascii) :
  PyStr.lower_char (PyStr.lower_char c) = PyStr.lower_char c.
Proof. destruct c as [[] [] [] [] [] [] [] []]; reflexivity. Qed.

Lemma is_space_lower_char (c : ascii) :
  PyStr.is_space (PyStr.lower_char c) = PyStr.is_space c.
Proof. destruct c as [[] [] [] [] [] [] [] []]; reflexivity. Qed.

Lemma lower_idempotent (s : string) : PyStr.lower (PyStr.lower s) = PyStr.lower s.
Proof.
  induction s as [| c s IH]; simpl; [reflexivity |].
  now rewrite lower_char_idempotent, IH.
Qed.

Lemma lstrip_lower (s : string) :
  PyStr.lstrip (PyStr.lower s) = PyStr.lower (PyStr.lstrip s).
Proof.
  induction s as [| c s IH]; simpl; [reflexivity |].
  rewrite is_space_lower_char. now destruct (PyStr.is_space c).
Qed.

Lemma rstrip_lower (s : string) :
  PyStr.rstrip (PyStr.lower s) = PyStr.lower (PyStr.rstrip s).
Proof.
  induction s as [| c s IH]; simpl; [reflexivity |].
  rewrite IH, is_space_lower_char.
  destruct (PyStr.rstrip s); simpl; [now destruct (PyStr.is_space c) | reflexivity].
Qed.

Lemma strip_lower (s : string) :
  PyStr.strip (PyStr.lower s) = PyStr.lower (PyStr.strip s).
Proof. unfold PyStr.strip. now rewrite lstrip_lower, rstrip_lower. Qed.

Lemma rstrip_idempotent (s : string) : PyStr.rstrip (PyStr.rstrip s) = PyStr.rstrip s.
Proof.
  induction s as [| c s IH]; simpl; [reflexivity |].
  destruct (PyStr.rstrip s) as [| x y] eqn:E.
  - destruct (PyStr.is_space c) eqn:Hc; simpl; [reflexivity | now rewrite Hc].
  - remember (String x y) as t eqn:Ht. simpl. rewrite IH. now subst t.
Qed.

Lemma lstrip_fixed (s : string) :
  (forall c r, s = String c r -> PyStr.is_space c = false) -> PyStr.lstrip s = s.
Proof.
  destruct s as [| c r]; [reflexivity |]. intros H. simpl.
  now rewrite (H c r eq_refl).
Qed.

Lemma strip_idempotent (s : string) : PyStr.strip (PyStr.strip s) = PyStr.strip s.
Proof.
  unfold PyStr.strip. rewrite (lstrip_fixed (PyStr.rstrip (PyStr.lstrip s))).
  - apply rstrip_idempotent.
  - intros c r H. apply rstrip_head in H. destruct H as [r' H].
    now apply lstrip_head in H.
Qed.

Lemma load_row_get (m : Dict.t string) (row : list string) (site : string) :
  Dict.get (load_row m row) site
  = if row_is_for site row
    then Some (PyStr.lower (PyStr.strip (nth 1 row "")))
    else Dict.get m site.
Proof.
  unfold load_row, row_is_for.
  destruct (2 <=? length row)%nat; [| reflexivity]. cbn [andb].
  destruct (String.eqb (PyStr.strip (nth 0 row "")) site) eqn:E.
  - apply String.eqb_eq in E. subst site. apply dict_get_set_same.
  - apply String.eqb_neq in E. apply dict_get_set_other. congruence.
Qed.

Lemma fold_load_row_get (rows : list (list string)) (site : string) :
  forall m,
    Dict.get (fold_left load_row rows m) site
    = match last_country site rows with
      | Some country => Some country
      | None => Dict.get m site
      end.
Proof.
  induction rows as [| row rows IH] using rev_ind; intros m.
  - reflexivity.
  - rewrite fold_left_app. cbn [fold_left]. rewrite load_row_get.
    unfold last_country. rewrite rev_app_distr. cbn [rev app find].
    destruct (row_is_for site row); [reflexivity |].
    rewrite IH. unfold last_country. reflexivity.
Qed.

Lemma dict_set_forall {V : Type} (Q : string * V -> Prop) (d : Dict.t V)
    (k : string) (v : V) :
  Forall Q d -> Q (k, v) -> (forall k' w, Q (k', w) -> k' = k -> Q (k', v)) ->
  Forall Q (Dict.set d k v).
Proof.
  intros Hd Hq Hk. induction Hd as [| [k' w] d Hx Hd' IH]; simpl.
  - now constructor.
  - destruct (String.eqb k' k) eqn:E.
    + apply String.eqb_eq in E. constructor; [now apply (Hk k' w) | exact Hd'].
    + now constructor.
Qed.

Lemma fold_load_row_normalized (rows : list (list string)) :
  forall m,
    NoDup (map fst m) ->
    Forall (fun item : string * string =>
              PyStr.strip (fst item) = fst item /\
              PyStr.lower (snd item) = snd item /\
              PyStr.strip (snd item) = snd item) m ->
    NoDup (map fst (fold_left load_row rows m)) /\
    Forall (fun item : string * string =>
              PyStr.strip (fst item) = fst item /\
              PyStr.lower (snd item) = snd item /\
              PyStr.strip (snd item) = snd item)
           (fold_left load_row rows m).
Proof.
  induction rows as [| row rows IH]; intros m Hd Hall; [now split |].
  cbn [fold_left]. apply IH.
  - unfold load_row. destruct (2 <=? length row)%nat; [| exact Hd].
    now apply dict_set_nodup.
  - unfold load_row. destruct (2 <=? length row)%nat; [| exact Hall].
    apply dict_set_forall; [exact Hall | |].
    + cbn [fst snd]. split; [apply strip_idempotent |].
      split; [apply lower_idempotent |].
      now rewrite strip_lower, strip_idempotent.
    + intros k' w [Hk' _] _. cbn [fst snd] in *. split; [exact Hk' |].
      split; [apply lower_idempotent |].
      now rewrite strip_lower, strip_idempotent.
Qed.

(** X21: [load_website_language_map] stops on [StopIteration] when the
    file has no row at all.  Otherwise it returns a map that does not
    depend on the first row, and that gives, for a site, the country of
    the last later row of two fields or more whose first field, stripped,
    is the site: the second field stripped and in lower case.  Shorter
    rows count for nothing. *)
Theorem load_map_last_row_wins :
  load_website_language_map [] = StopIteration /\
  forall (header : list string) (rows : list (list string)),
    exists site_country_map,
      load_website_language_map (header :: rows) = Loaded site_country_map /\
      forall site, Dict.get site_country_map site = last_country site rows.
Proof.
  split; [reflexivity |]. intros header rows. eexists. split; [reflexivity |].
  intros site. rewrite fold_load_row_get. cbn [Dict.get].
  now destruct (last_country site rows).
Qed.

Example load_map_sample_run :
  load_website_language_map sample_rows
  = Loaded [("shop.example", "french"); ("news.example", "german")].
Proof. reflexivity. Qed.

(** X22: the map [load_website_language_map] returns has no site twice;
    its sites and countries have no whitespace at either end and its
    countries are in lower case.  So the country under which a profile
    is looked up, the one of the map or the default ["dutch"], is always
    in lower case. *)
Theorem load_map_is_normalized :
  forall (rows : list (list string)) (site_country_map : Dict.t string),
    load_website_language_map rows = Loaded site_country_map ->
    NoDup (map fst site_country_map) /\
    (forall site country,
        In (site, country) site_country_map ->
        PyStr.strip site = site /\
        PyStr.lower country = country /\
        PyStr.strip country = country) /\
    (forall site,
        PyStr.lower (Dict.get_default site_country_map site "dutch")
        = Dict.get_default site_country_map site "dutch").
Proof.
  intros rows m Hload. destruct rows as [| header rows]; [discriminate |].
  injection Hload as <-.
  destruct (fold_load_row_normalized rows [] (NoDup_nil _) (Forall_nil _))
    as [Hd Hall].
  rewrite Forall_forall in Hall.
  split; [exact Hd |]. split.
  - intros site country Hin. exact (Hall _ Hin).
  - intros site. unfold Dict.get_default.
    destruct (Dict.get (fold_left load_row rows []) site) as [country |] eqn:E;
      [| reflexivity].
    apply dict_get_in in E. now destruct (Hall _ E) as [_ [Hlow _]].
Qed.

Lemma load_map_is_normalized_witness :
  NoDup (map fst [("shop.example", "french"); ("news.example", "german")]) /\
  (forall site country,
      In (site, country) [("shop.example", "french"); ("news.example", "german")] ->
      PyStr.strip site = site /\
      PyStr.lower country = country /\
      PyStr.strip country = country) /\
  (forall site,
      PyStr.lower
        (Dict.get_default [("shop.example", "french"); ("news.example", "german")]
           site "dutch")
      = Dict.get_default [("shop.example", "french"); ("news.example", "german")]
          site "dutch").
Proof.
  apply (load_map_is_normalized sample_rows).
  reflexivity.
Defined.

(** ** The sentinel key *)

Lemma chars_app (a b : string) : chars (a ++ b) = chars a ++ chars b.
Proof.
  unfold chars. induction a as [| c a IH]; simpl; [reflexivity |].
  now rewrite IH.
Qed.

Lemma extract_domain_has_dot (tldextract_extract : string -> ExtractResult)
    (url : string) :
  In "."%char (chars (extract_domain tldextract_extract url)).
Proof.
  unfold extract_domain, fstring. cbn [String.concat].
  rewrite !chars_app. apply in_or_app. right. apply in_or_app. right.
  apply in_or_app. left. simpl. now left.
Qed.

(** X23: the key of a URL is the sentinel ["blob-url"] exactly when the
    URL starts with [blob:]: what [extract_domain] builds always has a
    dot, which the sentinel has not. *)
Theorem sentinel_key_only_for_blob_urls :
  forall (tldextract_extract : string -> ExtractResult) (url : string),
    (domain_key tldextract_extract url = "blob-url" <->
     PyStr.startswith url "blob:" = true) /\
    In "."%char (chars (extract_domain tldextract_extract url)).
Proof.
  intros tldextract_extract url. split; [| apply extract_domain_has_dot].
  unfold domain_key. destruct (PyStr.startswith url "blob:").
  - split; reflexivity.
  - split; [| discriminate]. intros H.
    pose proof (extract_domain_has_dot tldextract_extract url) as Hdot.
    rewrite H in Hdot. simpl in Hdot.
    repeat (destruct Hdot as [Hdot | Hdot]; [discriminate |]). contradiction.
Qed.
